(** * Ticket ledger: a shallow embedding of [andi.py]

    The three source files carry the same ledger core (classes
    [TicketTransaction], [Block] and [TicketBlockchain]); everything after
    it is Streamlit page code.  This development embeds the core:

    - [hashlib.sha256(..).hexdigest()] as the function [sha256_hexdigest]
      (FIPS 180-4, computed on 32-bit words held in [Z]);
    - [json.dumps(.., sort_keys=True)] as [dumps] on a small JSON value type;
    - the classes as records, the methods as functions from the state of the
      object before the call to the result and the state after it.

    Inputs that the source draws from its environment are arguments of the
    embedded methods: the value of [time.time()] and the text of
    [str(uuid.uuid4())]. *)

From Stdlib Require Import ZArith Ascii String DecimalString List.
From stdpp Require Import gmap strings list fin_maps.

Local Open Scope Z_scope.

(** ** SHA-256 *)

Module Sha256.

Definition mask32 : Z := 0xffffffff.

Definition add32 (a b : Z) : Z := Z.land (a + b) mask32.

Definition rotr (n x : Z) : Z :=
  Z.lor (Z.shiftr x n) (Z.land (Z.shiftl x (32 - n)) mask32).

Definition not32 (x : Z) : Z := Z.lxor x mask32.

Definition Ch (x y z : Z) : Z := Z.lxor (Z.land x y) (Z.land (not32 x) z).

Definition Maj (x y z : Z) : Z :=
  Z.lxor (Z.lxor (Z.land x y) (Z.land x z)) (Z.land y z).

Definition bsig0 (x : Z) : Z := Z.lxor (Z.lxor (rotr 2 x) (rotr 13 x)) (rotr 22 x).
Definition bsig1 (x : Z) : Z := Z.lxor (Z.lxor (rotr 6 x) (rotr 11 x)) (rotr 25 x).
Definition ssig0 (x : Z) : Z := Z.lxor (Z.lxor (rotr 7 x) (rotr 18 x)) (Z.shiftr x 3).
Definition ssig1 (x : Z) : Z := Z.lxor (Z.lxor (rotr 17 x) (rotr 19 x)) (Z.shiftr x 10).

(** The constants are the first 32 bits of the fractional parts of the cube
    roots (for [K]) and of the square roots (for [H0]) of the first primes. *)
Fixpoint primes_from (fuel : nat) (n : Z) (count : nat) (found : list Z) : list Z :=
  match fuel, count with
  | O, _ | _, O => rev found
  | S fuel', S count' =>
      if forallb (fun p => negb (n mod p =? 0)) found
      then primes_from fuel' (n + 1) count' (n :: found)
      else primes_from fuel' (n + 1) count found
  end.

Definition first_primes (count : nat) : list Z := primes_from 400 2 count [].

(** The integer cube root of a number below [2 ^ 108], bit by bit. *)
Definition cube_root (n : Z) : Z :=
  fold_left
    (fun r bit => let r' := r + Z.shiftl 1 bit in if r' * r' * r' <=? n then r' else r)
    (map Z.of_nat (rev (seq 0 36))) 0.

Definition K : list Z :=
  Eval vm_compute in
    map (fun p => Z.land (cube_root (Z.shiftl p 96)) mask32) (first_primes 64).

Definition H0 : list Z :=
  Eval vm_compute in
    map (fun p => Z.land (Z.sqrt (Z.shiftl p 64)) mask32) (first_primes 8).

(** The eight working variables [a .. h]. *)
Record regs : Type := Regs { ra : Z; rb : Z; rc : Z; rd : Z; re : Z; rf : Z; rg : Z; rh : Z }.

Definition regs_of_list (l : list Z) : regs :=
  let n i := nth i l 0 in Regs (n 0%nat) (n 1%nat) (n 2%nat) (n 3%nat) (n 4%nat) (n 5%nat) (n 6%nat) (n 7%nat).

Definition list_of_regs (r : regs) : list Z :=
  [ra r; rb r; rc r; rd r; re r; rf r; rg r; rh r].

(** One round on working variables [r] with round constant [k] and schedule
    word [w]. *)
Definition round (r : regs) (k w : Z) : regs :=
  let t1 := add32 (add32 (add32 (add32 (rh r) (bsig1 (re r))) (Ch (re r) (rf r) (rg r))) k) w in
  let t2 := add32 (bsig0 (ra r)) (Maj (ra r) (rb r) (rc r)) in
  Regs (add32 t1 t2) (ra r) (rb r) (rc r) (add32 (rd r) t1) (re r) (rf r) (rg r).

(** The message schedule is kept as a window of the sixteen latest words:
    its head is [W t], and [W (t+16)] is pushed at its end. *)
Definition next_word (win : list Z) : Z :=
  let n i := nth i win 0 in
  add32 (add32 (add32 (ssig1 (n 14%nat)) (n 9%nat)) (ssig0 (n 1%nat))) (n 0%nat).

Definition rounds (r : regs) (win : list Z) : regs :=
  fst (fold_left
         (fun (st : regs * list Z) (k : Z) =>
            let '(r, win) := st in
            (round r k (nth 0 win 0), tl win ++ [next_word win]))
         K (r, win)).

Fixpoint be_words (bs : list Z) : list Z :=
  match bs with
  | b0 :: b1 :: b2 :: b3 :: rest =>
      Z.lor (Z.lor (Z.lor (Z.shiftl b0 24) (Z.shiftl b1 16)) (Z.shiftl b2 8)) b3
      :: be_words rest
  | _ => []
  end.

Definition compress (h : list Z) (chunk : list Z) : list Z :=
  let r := rounds (regs_of_list h) (be_words chunk) in
  zip_with add32 h (list_of_regs r).

Definition pad (msg : list Z) : list Z :=
  let len := Z.of_nat (length msg) in
  let bits := 8 * len in
  msg ++ [0x80] ++ repeat 0 (Z.to_nat ((55 - len) mod 64))
      ++ map (fun i => Z.land (Z.shiftr bits (8 * i)) 0xff) [7; 6; 5; 4; 3; 2; 1; 0].

Fixpoint chunks (n : nat) (bs : list Z) : list (list Z) :=
  match n with
  | O => []
  | S n' => match bs with
            | [] => []
            | _ => firstn 64 bs :: chunks n' (skipn 64 bs)
            end
  end.

Definition digest_words (msg : list Z) : list Z :=
  let p := pad msg in
  fold_left compress (chunks (length p) p) H0.

Definition hex_digit (d : Z) : ascii :=
  ascii_of_N (Z.to_N (if d <? 10 then 48 + d else 87 + d)).

Definition hex_word (w : Z) : string :=
  string_of_list_ascii
    (map (fun i => hex_digit (Z.land (Z.shiftr w (4 * i)) 0xf)) [7; 6; 5; 4; 3; 2; 1; 0]).

Definition bytes_of_string (s : string) : list Z :=
  map (fun c => Z.of_N (N_of_ascii c)) (list_ascii_of_string s).

End Sha256.

(** [hashlib.sha256(s.encode()).hexdigest()] for a text [s] of ASCII
    characters, which is all that [json.dumps] produces. *)
Definition sha256_hexdigest (s : string) : string :=
  String.concat EmptyString (map Sha256.hex_word (Sha256.digest_words (Sha256.bytes_of_string s))).


(** ** Python values and [json.dumps]

    A Python [str] is a [string] whose characters are read as the code points
    U+0000 .. U+00FF.  A Python [int] is a [Z].  A [float] is held by its
    [repr], the text that [json.dumps] writes for it: [repr] is injective on
    the finite floats, the only ones [time.time()] returns. *)

Record pyfloat : Type := PyFloat { float_repr : string }.

Local Open Scope string_scope.
Local Open Scope list_scope.

Module Json.

#[local] Set Warnings "-register-all".

Inductive value : Type :=
| Null
| Int (z : Z)
| Float (f : pyfloat)
| Str (s : string)
| List (l : list value)
| Dict (items : list (string * value)).

Definition dquote : string := String (ascii_of_nat 34) EmptyString.
Definition backslash : string := String (ascii_of_nat 92) EmptyString.

Definition hex2 (n : N) : string :=
  String (Sha256.hex_digit (Z.of_N (N.div n 16)))
    (String (Sha256.hex_digit (Z.of_N (N.modulo n 16))) EmptyString).

(** [ESCAPE_ASCII] with [ESCAPE_DCT] of [json.encoder], on one character. *)
Definition escape_char (c : ascii) : string :=
  let n := N_of_ascii c in
  if N.eqb n 34 then backslash +:+ dquote
  else if N.eqb n 92 then backslash +:+ backslash
  else if N.eqb n 8 then backslash +:+ "b"
  else if N.eqb n 12 then backslash +:+ "f"
  else if N.eqb n 10 then backslash +:+ "n"
  else if N.eqb n 13 then backslash +:+ "r"
  else if N.eqb n 9 then backslash +:+ "t"
  else if (N.ltb n 32 || N.ltb 126 n)%bool then backslash +:+ "u00" +:+ hex2 n
  else String c EmptyString.

Fixpoint escape (s : string) : string :=
  match s with
  | EmptyString => EmptyString
  | String c s' => escape_char c +:+ escape s'
  end.

Definition encode_basestring_ascii (s : string) : string :=
  dquote +:+ escape s +:+ dquote.

Definition int_repr (z : Z) : string := NilZero.string_of_int (Z.to_int z).

(** [sorted(dct.items())]: insertion sort on the keys, by code point. *)
Fixpoint insert_item {A : Type} (kv : string * A) (l : list (string * A)) : list (string * A) :=
  match l with
  | [] => [kv]
  | kv' :: l' =>
      if String.leb (fst kv) (fst kv') then kv :: l else kv' :: insert_item kv l'
  end.

Definition sort_items {A : Type} (l : list (string * A)) : list (string * A) :=
  foldr insert_item [] l.

Definition item_text (kv : string * string) : string :=
  encode_basestring_ascii (fst kv) +:+ ": " +:+ snd kv.

(** [json.dumps(v, sort_keys=True)], default separators. *)
Fixpoint dumps (v : value) : string :=
  match v with
  | Null => "null"
  | Int z => int_repr z
  | Float f => float_repr f
  | Str s => encode_basestring_ascii s
  | List l => "[" +:+ String.concat ", " (map dumps l) +:+ "]"
  | Dict items =>
      "{" +:+ String.concat ", "
                (map item_text (sort_items (map (fun kv => (fst kv, dumps (snd kv))) items)))
          +:+ "}"
  end.

End Json.


(** ** The classes of the source *)

(** What a call does: it returns, raises, or is still running when the fuel
    given to its [while] loop is spent. *)
Inductive outcome (A : Type) : Type :=
| Returns (a : A)
| Raises (exn : string)
| OutOfFuel.

Arguments Returns {A} a.
Arguments Raises {A} exn.
Arguments OutOfFuel {A}.

(** [s * n] on a [str]. *)
Definition str_mul (s : string) (n : Z) : string :=
  String.concat EmptyString (repeat s (Z.to_nat n)).

(** [s.startswith(p)]. *)
Definition startswith (s p : string) : bool := String.prefix p s.

Module TicketTransaction.

Record t : Type := Build {
  tx_type : string;
  ticket_id : string;
  owner : string;
  event : option string;
  new_owner : option string;
  timestamp : pyfloat
}.

(** [TicketTransaction(tx_type, ticket_id, owner, event=None, new_owner=None)],
    with [now] the value of [time.time()]. *)
Definition init (now : pyfloat) (tx_type ticket_id owner : string)
    (event new_owner : option string) : t :=
  Build tx_type ticket_id owner event new_owner now.

Definition opt_str (o : option string) : Json.value :=
  match o with
  | Some s => Json.Str s
  | None => Json.Null
  end.

(** [to_dict] returns [self.__dict__]: the attributes, in the order in which
    [__init__] assigned them. *)
Definition to_dict (tx : t) : Json.value :=
  Json.Dict
    [ ("tx_type", Json.Str (tx_type tx));
      ("ticket_id", Json.Str (ticket_id tx));
      ("owner", Json.Str (owner tx));
      ("event", opt_str (event tx));
      ("new_owner", opt_str (new_owner tx));
      ("timestamp", Json.Float (timestamp tx)) ].

End TicketTransaction.

Module Block.

(** [hash] is [None] until the attribute is assigned, which [__init__] does
    not do. *)
Record t : Type := Build {
  index : Z;
  transactions : list TicketTransaction.t;
  timestamp : pyfloat;
  previous_hash : string;
  nonce : Z;
  hash : option string
}.

(** [Block(index, transactions, previous_hash)], [nonce] defaulting to 0. *)
Definition init (now : pyfloat) (index : Z) (transactions : list TicketTransaction.t)
    (previous_hash : string) : t :=
  Build index transactions now previous_hash 0 None.

Definition set_nonce (n : Z) (b : t) : t :=
  Build (index b) (transactions b) (timestamp b) (previous_hash b) n (hash b).

Definition set_hash (h : string) (b : t) : t :=
  Build (index b) (transactions b) (timestamp b) (previous_hash b) (nonce b) (Some h).

Definition block_string (b : t) : string :=
  Json.dumps
    (Json.Dict
       [ ("index", Json.Int (index b));
         ("transactions", Json.List (map TicketTransaction.to_dict (transactions b)));
         ("timestamp", Json.Float (timestamp b));
         ("previous_hash", Json.Str (previous_hash b));
         ("nonce", Json.Int (nonce b)) ]).

Definition compute_hash (b : t) : string := sha256_hexdigest (block_string b).

End Block.

(** An entry of the [tickets] dict: [{"owner": .., "status": .., "event": ..}].
    The dict holds the only reference to an entry that the class keeps, so
    the assignments [ticket["owner"] = ..] and [ticket["status"] = ..] are
    updates of the entry stored under the ticket's id. *)
Module Ticket.

Record t : Type := Build {
  owner : string;
  status : string;
  event : string
}.

Definition set_owner (o : string) (tk : t) : t := Build o (status tk) (event tk).
Definition set_status (s : string) (tk : t) : t := Build (owner tk) s (event tk).

End Ticket.

Module TicketBlockchain.

Definition difficulty : Z := 2.

Record t : Type := Build {
  chain : list Block.t;
  pending_transactions : list TicketTransaction.t;
  tickets : gmap string Ticket.t
}.

Definition set_chain (c : list Block.t) (bc : t) : t :=
  Build c (pending_transactions bc) (tickets bc).
Definition set_pending (p : list TicketTransaction.t) (bc : t) : t :=
  Build (chain bc) p (tickets bc).
Definition set_tickets (m : gmap string Ticket.t) (bc : t) : t :=
  Build (chain bc) (pending_transactions bc) m.

Definition create_genesis_block (now : pyfloat) (bc : t) : t :=
  let genesis_block := Block.init now 0 [] "0" in
  let genesis_block := Block.set_hash (Block.compute_hash genesis_block) genesis_block in
  set_chain (chain bc ++ [genesis_block]) bc.

(** [TicketBlockchain()]. *)
Definition init (now : pyfloat) : t :=
  create_genesis_block now (Build [] [] ∅).

Definition add_transaction (transaction : TicketTransaction.t) (bc : t) : t :=
  set_pending (pending_transactions bc ++ [transaction]) bc.

(** The hash meets the difficulty. *)
Definition sealed (computed_hash : string) : bool :=
  startswith computed_hash (str_mul "0" difficulty).

(** The [while] loop of [proof_of_work]: [fuel] bounds the number of times
    its body runs. *)
Fixpoint pow_loop (fuel : nat) (block : Block.t) : outcome (Block.t * string) :=
  let computed_hash := Block.compute_hash block in
  if sealed computed_hash then Returns (block, computed_hash)
  else match fuel with
       | O => OutOfFuel
       | S fuel' => pow_loop fuel' (Block.set_nonce (Block.nonce block + 1) block)
       end.

(** Returns the block as the call leaves it, and the hash. *)
Definition proof_of_work (fuel : nat) (block : Block.t) : outcome (Block.t * string) :=
  pow_loop fuel (Block.set_nonce 0 block).

(** [now] is read by [Block(..)] only, so only when the pool is not empty. *)
Definition mine (fuel : nat) (now : pyfloat) (bc : t) : outcome (t * option Block.t) :=
  match pending_transactions bc with
  | [] => Returns (bc, None)
  | _ :: _ =>
      match last (chain bc) with
      | None => Raises "IndexError"
      | Some tip =>
          let new_block :=
            Block.init now (Z.of_nat (length (chain bc))) (pending_transactions bc)
              (Block.compute_hash tip) in
          match proof_of_work fuel new_block with
          | Returns (new_block, h) =>
              let new_block := Block.set_hash h new_block in
              Returns (set_pending [] (set_chain (chain bc ++ [new_block]) bc), Some new_block)
          | Raises e => Raises e
          | OutOfFuel => OutOfFuel
          end
      end
  end.

(** [uuid] is the text of [str(uuid.uuid4())]. *)
Definition issue_ticket (uuid : string) (now : pyfloat) (owner event : string) (bc : t)
    : t * string :=
  let ticket_id := uuid in
  let tx := TicketTransaction.init now "issue" ticket_id owner (Some event) None in
  let bc := add_transaction tx bc in
  (set_tickets (<[ticket_id := Ticket.Build owner "valid" event]> (tickets bc)) bc, ticket_id).

(** An entry has three keys, so [not ticket] holds for [None] only. *)
Definition transfer_ticket (now : pyfloat) (ticket_id new_owner : string) (bc : t) : t * bool :=
  match tickets bc !! ticket_id with
  | None => (bc, false)
  | Some ticket =>
      if negb (String.eqb (Ticket.status ticket) "valid") then (bc, false)
      else
        let tx := TicketTransaction.init now "transfer" ticket_id (Ticket.owner ticket)
                    None (Some new_owner) in
        let bc := add_transaction tx bc in
        (set_tickets (<[ticket_id := Ticket.set_owner new_owner ticket]> (tickets bc)) bc, true)
  end.

Definition redeem_ticket (now : pyfloat) (ticket_id : string) (bc : t) : t * bool :=
  match tickets bc !! ticket_id with
  | None => (bc, false)
  | Some ticket =>
      if negb (String.eqb (Ticket.status ticket) "valid") then (bc, false)
      else
        let tx := TicketTransaction.init now "redeem" ticket_id (Ticket.owner ticket)
                    None None in
        let bc := add_transaction tx bc in
        (set_tickets (<[ticket_id := Ticket.set_status "redeemed" ticket]> (tickets bc)) bc, true)
  end.

Definition verify_ticket (ticket_id : string) (bc : t) : option Ticket.t :=
  tickets bc !! ticket_id.

End TicketBlockchain.


(** ** Runs of a ledger

    One step is one call of a public method that changes the object;
    [verify_ticket] reads only.  [uuid.uuid4()] is taken to return an
    identifier that the index does not hold yet.  A call of [mine] is a step
    when it returns. *)

Inductive step : TicketBlockchain.t -> TicketBlockchain.t -> Prop :=
| step_issue uuid now owner event bc :
    TicketBlockchain.tickets bc !! uuid = None ->
    step bc (fst (TicketBlockchain.issue_ticket uuid now owner event bc))
| step_transfer now ticket_id new_owner bc :
    step bc (fst (TicketBlockchain.transfer_ticket now ticket_id new_owner bc))
| step_redeem now ticket_id bc :
    step bc (fst (TicketBlockchain.redeem_ticket now ticket_id bc))
| step_mine fuel now bc bc' r :
    TicketBlockchain.mine fuel now bc = Returns (bc', r) ->
    step bc bc'.

Definition reachable (bc : TicketBlockchain.t) : Prop :=
  exists now, rtc step (TicketBlockchain.init now) bc.

(** What holds of the chain of every reachable ledger. *)
Record chain_ok (c : list Block.t) : Prop := ChainOk {
  ok_nonempty : c <> [];
  ok_hash : forall i b, c !! i = Some b -> Block.hash b = Some (Block.compute_hash b);
  ok_sealed : forall i b,
    c !! S i = Some b -> TicketBlockchain.sealed (Block.compute_hash b) = true;
  ok_link : forall i p b,
    c !! i = Some p -> c !! S i = Some b -> Block.hash p = Some (Block.previous_hash b);
  ok_index : forall i b, c !! i = Some b -> Block.index b = Z.of_nat i
}.

(** All transactions that the ledger holds for a ticket, sealed ones first. *)
Definition ticket_history (ticket_id : string) (bc : TicketBlockchain.t)
    : list TicketTransaction.t :=
  filter (fun tx => TicketTransaction.ticket_id tx = ticket_id)
    (flat_map Block.transactions (TicketBlockchain.chain bc)
       ++ TicketBlockchain.pending_transactions bc).

(** The hash of [block] with its nonce set to [n]. *)
Definition hash_at (b : Block.t) (n : Z) : string :=
  Block.compute_hash (Block.set_nonce n b).

(** The block that [mine] builds before it searches for a nonce. *)
Definition candidate (now : pyfloat) (bc : TicketBlockchain.t) (tip : Block.t) : Block.t :=
  Block.init now (Z.of_nat (length (TicketBlockchain.chain bc)))
    (TicketBlockchain.pending_transactions bc) (Block.compute_hash tip).

(** The block that [mine] appends when the search stops at nonce [n]. *)
Definition mined (now : pyfloat) (bc : TicketBlockchain.t) (tip : Block.t) (n : Z) : Block.t :=
  Block.set_hash (hash_at (candidate now bc tip) n) (Block.set_nonce n (candidate now bc tip)).

Definition after_mine (bc : TicketBlockchain.t) (b : Block.t) : TicketBlockchain.t :=
  TicketBlockchain.Build (TicketBlockchain.chain bc ++ [b]) [] (TicketBlockchain.tickets bc).

(** The claim that a block is sealed: its stored hash is the hash of its
    fields and meets the difficulty. *)
Definition block_valid (b : Block.t) : Prop :=
  Block.hash b = Some (Block.compute_hash b)
  /\ TicketBlockchain.sealed (Block.compute_hash b) = true.

(** The guard of [transfer_ticket] and [redeem_ticket] fails. *)
Definition rejected (bc : TicketBlockchain.t) (ticket_id : string) : Prop :=
  TicketBlockchain.tickets bc !! ticket_id = None
  \/ exists tk, TicketBlockchain.tickets bc !! ticket_id = Some tk
                /\ Ticket.status tk <> "valid".

(** The ticket is in the index, redeemed. *)
Definition redeemed (ticket_id : string) (bc : TicketBlockchain.t) : Prop :=
  exists tk, TicketBlockchain.tickets bc !! ticket_id = Some tk
             /\ Ticket.status tk = "redeemed".

(** *** The canonical serialization, after the specification

    Written from the words of the specification, not from the source: the
    keys of every map in sorted order, every transaction with all its
    fields, the transactions in the order of the list. *)
Module Canonical.

Definition key (k : string) : string := Json.encode_basestring_ascii k +:+ ": ".

Definition text (s : string) : string := Json.encode_basestring_ascii s.

Definition opt_text (o : option string) : string :=
  match o with
  | Some s => text s
  | None => "null"
  end.

Definition transaction (tx : TicketTransaction.t) : string :=
  "{" +:+ key "event" +:+ opt_text (TicketTransaction.event tx)
      +:+ ", " +:+ key "new_owner" +:+ opt_text (TicketTransaction.new_owner tx)
      +:+ ", " +:+ key "owner" +:+ text (TicketTransaction.owner tx)
      +:+ ", " +:+ key "ticket_id" +:+ text (TicketTransaction.ticket_id tx)
      +:+ ", " +:+ key "timestamp" +:+ float_repr (TicketTransaction.timestamp tx)
      +:+ ", " +:+ key "tx_type" +:+ text (TicketTransaction.tx_type tx)
      +:+ "}".

Definition block (b : Block.t) : string :=
  "{" +:+ key "index" +:+ Json.int_repr (Block.index b)
      +:+ ", " +:+ key "nonce" +:+ Json.int_repr (Block.nonce b)
      +:+ ", " +:+ key "previous_hash" +:+ text (Block.previous_hash b)
      +:+ ", " +:+ key "timestamp" +:+ float_repr (Block.timestamp b)
      +:+ ", " +:+ key "transactions" +:+ "["
      +:+ String.concat ", " (map transaction (Block.transactions b)) +:+ "]"
      +:+ "}".

End Canonical.

(** Two blocks with the same values in the five hashed fields. *)
Definition same_fields (b1 b2 : Block.t) : Prop :=
  Block.index b1 = Block.index b2
  /\ Block.transactions b1 = Block.transactions b2
  /\ Block.timestamp b1 = Block.timestamp b2
  /\ Block.previous_hash b1 = Block.previous_hash b2
  /\ Block.nonce b1 = Block.nonce b2.

(** ** A session

    One ticket is issued to Alice and sealed in block 1, whose search stops
    at nonce 2. *)
Module Session.

Definition t0 : pyfloat := PyFloat "1700000000.0".
Definition t1 : pyfloat := PyFloat "1700000001.25".
Definition t2 : pyfloat := PyFloat "1700000103.25".
Definition t3 : pyfloat := PyFloat "1700000200.5".
Definition t4 : pyfloat := PyFloat "1700000300.75".
Definition t5 : pyfloat := PyFloat "1700000400.125".
Definition id1 : string := "3f2b8c1e-5d4a-4e6f-9a7b-0c1d2e3f4a5b".
Definition id2 : string := "9d1c7a60-2b3e-4f58-8c6d-7e5f4a3b2c1d".

Definition genesis : Block.t :=
  Block.Build 0 [] t0 "0" 0
    (Some "50d82b0d66572ea697cec74d73a843c77a715d6b2384ac18ed0e15346d603cb6").

Definition ledger0 : TicketBlockchain.t := TicketBlockchain.init t0.

Definition ledger1 : TicketBlockchain.t :=
  fst (TicketBlockchain.issue_ticket id1 t1 "Alice" "Concert A" ledger0).

Definition block1 : Block.t := mined t2 ledger1 genesis 2.

Definition ledger2 : TicketBlockchain.t := after_mine ledger1 block1.

Definition ledger3 : TicketBlockchain.t :=
  fst (TicketBlockchain.transfer_ticket t3 id1 "Bob" ledger2).

Definition ledger4 : TicketBlockchain.t :=
  fst (TicketBlockchain.redeem_ticket t4 id1 ledger3).

Definition ledger5 : TicketBlockchain.t :=
  fst (TicketBlockchain.issue_ticket id2 t5 "Dave" "Concert B" ledger4).

End Session.

(** ** The callers in the page code

    The page code of [69.py] reads the ticket index to fill its drop-down
    lists and drives the ledger from its buttons.  The parts embedded here
    are the ones that only use the ledger object. *)

Module Page.

(** [[tid for tid, t in blockchain.tickets.items() if t["status"] == "valid"]].
    Python lists the items in insertion order; a [gmap] does not keep that
    order, so the list stands for the comprehension up to the order of its
    elements. *)
Definition valid_tickets (bc : TicketBlockchain.t) : list string :=
  (map_to_list
     (filter (fun kv : string * Ticket.t => Ticket.status (snd kv) = "valid")
        (TicketBlockchain.tickets bc))).*1.

(** [list(blockchain.tickets.keys())], up to order as well. *)
Definition all_tickets (bc : TicketBlockchain.t) : list string :=
  (map_to_list (TicketBlockchain.tickets bc)).*1.

(** One request of the loop: the identifier and the time drawn for it, the
    owner and the event. *)
Definition request : Type := string * pyfloat * string * string.

Definition request_id (r : request) : string := fst (fst (fst r)).

(** The transaction and the index entry that [issue_ticket] makes for a
    request. *)
Definition request_tx (r : request) : TicketTransaction.t :=
  let '(uuid, now, owner, event) := r in
  TicketTransaction.Build "issue" uuid owner (Some event) None now.

Definition request_ticket (r : request) : Ticket.t :=
  let '(_, _, owner, event) := r in Ticket.Build owner "valid" event.

(** [for owner, event in demo_tickets: .. issue_ticket(owner, event)], with
    the identifiers it returns, in order. *)
Fixpoint issue_all (reqs : list request) (bc : TicketBlockchain.t)
    : TicketBlockchain.t * list string :=
  match reqs with
  | [] => (bc, [])
  | (uuid, now, owner, event) :: rest =>
      let '(bc, ticket_id) := TicketBlockchain.issue_ticket uuid now owner event bc in
      let '(bc, ids) := issue_all rest bc in
      (bc, ticket_id :: ids)
  end.

(** A statement [blockchain.mine()]: the block returned is dropped. *)
Definition mine_stmt (fuel : nat) (now : pyfloat) (bc : TicketBlockchain.t)
    : outcome TicketBlockchain.t :=
  match TicketBlockchain.mine fuel now bc with
  | Returns (bc, _) => Returns bc
  | Raises e => Raises e
  | OutOfFuel => OutOfFuel
  end.

(** The first run of the page: a new ledger, the demo tickets, one [mine]. *)
Definition preload (fuel : nat) (t_genesis : pyfloat) (reqs : list request) (t_block : pyfloat)
    : outcome TicketBlockchain.t :=
  let blockchain := TicketBlockchain.init t_genesis in
  let '(blockchain, _) := issue_all reqs blockchain in
  mine_stmt fuel t_block blockchain.

(** The body of the "Redeem Ticket" button: the result of [redeem_ticket]
    is dropped, then [mine] runs. *)
Definition redeem_button (fuel : nat) (t_tx t_block : pyfloat) (redeem_ticket_id : string)
    (bc : TicketBlockchain.t) : outcome TicketBlockchain.t :=
  let '(bc, _) := TicketBlockchain.redeem_ticket t_tx redeem_ticket_id bc in
  mine_stmt fuel t_block bc.

(** The body of the "Transfer Ticket" button: nothing is called when the
    text field [new_owner] is empty. *)
Definition transfer_button (fuel : nat) (t_tx t_block : pyfloat)
    (transfer_ticket_id new_owner : string) (bc : TicketBlockchain.t)
    : outcome TicketBlockchain.t :=
  if String.eqb new_owner EmptyString then Returns bc
  else
    let '(bc, _) := TicketBlockchain.transfer_ticket t_tx transfer_ticket_id new_owner bc in
    mine_stmt fuel t_block bc.

End Page.

(** ** Views of a ledger used in the statements *)

(** The genesis block of a ledger constructed at [now]. *)
Definition genesis_block (now : pyfloat) : Block.t :=
  Block.set_hash (Block.compute_hash (Block.init now 0 [] "0")) (Block.init now 0 [] "0").

(** Every transaction the ledger holds: those of the sealed blocks, block
    after block, then the pending ones. *)
Definition history (bc : TicketBlockchain.t) : list TicketTransaction.t :=
  flat_map Block.transactions (TicketBlockchain.chain bc)
    ++ TicketBlockchain.pending_transactions bc.

(** What a recorded transaction says about the ticket index. *)
Definition apply_transaction (m : gmap string Ticket.t) (tx : TicketTransaction.t)
    : gmap string Ticket.t :=
  let id := TicketTransaction.ticket_id tx in
  if String.eqb (TicketTransaction.tx_type tx) "issue" then
    match TicketTransaction.event tx with
    | Some event => <[id := Ticket.Build (TicketTransaction.owner tx) "valid" event]> m
    | None => m
    end
  else if String.eqb (TicketTransaction.tx_type tx) "transfer" then
    match m !! id, TicketTransaction.new_owner tx with
    | Some tk, Some new_owner => <[id := Ticket.set_owner new_owner tk]> m
    | _, _ => m
    end
  else if String.eqb (TicketTransaction.tx_type tx) "redeem" then
    match m !! id with
    | Some tk => <[id := Ticket.set_status "redeemed" tk]> m
    | None => m
    end
  else m.

(** The index that the recorded transactions give, read in order. *)
Definition replay (txs : list TicketTransaction.t) : gmap string Ticket.t :=
  foldl apply_transaction ∅ txs.

(** The transactions of one kind that the ledger holds for a ticket. *)
Definition records (kind ticket_id : string) (bc : TicketBlockchain.t)
    : list TicketTransaction.t :=
  filter (fun tx => TicketTransaction.tx_type tx = kind
                    /\ TicketTransaction.ticket_id tx = ticket_id)
    (history bc).

(** The lower-case hexadecimal digits. *)
Definition is_hex (c : ascii) : bool :=
  let n := N_of_ascii c in
  ((N.leb 48 n && N.leb n 57) || (N.leb 97 n && N.leb n 102))%bool.

(** ** The demo tickets

    The three tickets that the page issues on its first run, with
    identifiers and times for them. *)
Module Demo.

Definition t_genesis : pyfloat := PyFloat "1700000000.0".
Definition t_block : pyfloat := PyFloat "1700000053.5".

Definition demo_tickets : list Page.request :=
  [ ("6a1f0c52-8e3b-4d7a-9c2e-1b4f5d6a7e80", PyFloat "1700000000.5", "Alice", "Concert A");
    ("b7d2e941-3c5f-4a68-8f1d-2e9c0a7b6d53", PyFloat "1700000000.75", "Bob", "Concert B");
    ("e4c8a3f7-1d2b-4e9c-a5f6-7b8d9e0c1a24", PyFloat "1700000001.0", "Charlie",
     "Sports Event C") ].

(** The time of the block that the "Redeem Ticket" button seals in the
    session, after a redemption at [Session.t3]. *)
Definition t_redeem_block : pyfloat := PyFloat "1700000220.25".

End Demo.

(** ** Properties *)

Arguments sha256_hexdigest : simpl never.
Arguments Json.dumps : simpl never.
Arguments Json.int_repr : simpl never.
Arguments Block.compute_hash : simpl never.

Section Hashing.

(** The digest agrees with the test vectors of FIPS 180-4 on the empty
    message and on "abc". *)
Lemma sha256_empty :
  sha256_hexdigest EmptyString
  = "e3b0c44298fc1c149afbf4c8996fb92427ae41e4649b934ca495991b7852b855".
Proof. vm_compute. reflexivity. Qed.

Lemma sha256_abc :
  sha256_hexdigest "abc"
  = "ba7816bf8f01cfea414140de5dae2223b00361a396177a9cb410ff61f20015ad".
Proof. vm_compute. reflexivity. Qed.

Lemma compute_hash_set_hash h b :
  Block.compute_hash (Block.set_hash h b) = Block.compute_hash b.
Proof. destruct b; reflexivity. Qed.

End Hashing.

Section ProofOfWork.

Variable block : Block.t.

Lemma pow_loop_unfold fuel s :
  TicketBlockchain.pow_loop fuel (Block.set_nonce s block) =
  if TicketBlockchain.sealed (hash_at block s)
  then Returns (Block.set_nonce s block, hash_at block s)
  else match fuel with
       | O => OutOfFuel
       | S fuel' => TicketBlockchain.pow_loop fuel' (Block.set_nonce (s + 1) block)
       end.
Proof. destruct fuel; reflexivity. Qed.

(** From nonce [s], with the first sealed hash [d] nonces further: the loop
    returns there when it may run [d] times, and not before. *)
Lemma pow_loop_search d : forall s fuel,
  (forall k, s <= k < s + Z.of_nat d -> TicketBlockchain.sealed (hash_at block k) = false) ->
  TicketBlockchain.sealed (hash_at block (s + Z.of_nat d)) = true ->
  TicketBlockchain.pow_loop fuel (Block.set_nonce s block) =
  if (d <=? fuel)%nat
  then Returns (Block.set_nonce (s + Z.of_nat d) block, hash_at block (s + Z.of_nat d))
  else OutOfFuel.
Proof.
  induction d as [|d IH]; intros s fuel Hbelow Hat.
  - rewrite pow_loop_unfold. replace (s + Z.of_nat 0) with s in * by lia.
    rewrite Hat. reflexivity.
  - rewrite pow_loop_unfold. rewrite (Hbelow s) by lia.
    destruct fuel as [|fuel]; [reflexivity|].
    rewrite (IH (s + 1) fuel).
    + replace (s + 1 + Z.of_nat d) with (s + Z.of_nat (S d)) by lia. reflexivity.
    + intros k Hk. apply Hbelow. lia.
    + replace (s + 1 + Z.of_nat d) with (s + Z.of_nat (S d)) by lia. exact Hat.
Qed.

(** A loop that returns has stopped on a sealed hash of the block it
    returns, which is the block it was given but for the nonce. *)
Lemma pow_loop_returns fuel : forall s b h,
  TicketBlockchain.pow_loop fuel (Block.set_nonce s block) = Returns (b, h) ->
  exists n, s <= n /\ b = Block.set_nonce n block /\ h = Block.compute_hash b
            /\ TicketBlockchain.sealed h = true.
Proof.
  induction fuel as [|fuel IH]; intros s b h; rewrite pow_loop_unfold;
    destruct (TicketBlockchain.sealed (hash_at block s)) eqn:Hs; intros Hr;
    try discriminate.
  - injection Hr as <- <-. exists s. repeat split; [lia | exact Hs].
  - injection Hr as <- <-. exists s. repeat split; [lia | exact Hs].
  - destruct (IH _ _ _ Hr) as (n & Hn & Hb & Hh & Hsl).
    exists n. repeat split; [lia | assumption ..].
Qed.

End ProofOfWork.

(** Below any bound, a test fails throughout or has a least argument at which
    it holds. *)
Lemma least_below (P : Z -> bool) (n : nat) :
  (forall k, 0 <= k < Z.of_nat n -> P k = false)
  \/ exists m : nat, (m < n)%nat /\ P (Z.of_nat m) = true
                     /\ forall k, 0 <= k < Z.of_nat m -> P k = false.
Proof.
  induction n as [|n [Hnone|(m & Hm & HPm & Hleast)]].
  - left. intros k Hk. lia.
  - destruct (P (Z.of_nat n)) eqn:HPn.
    + right. exists n. repeat split; [lia | assumption ..].
    + left. intros k Hk. destruct (decide (k = Z.of_nat n)) as [->|Hne];
        [assumption | apply Hnone; lia].
  - right. exists m. repeat split; [lia | assumption ..].
Qed.

Lemma least_true (P : Z -> bool) (n : nat) :
  P (Z.of_nat n) = true ->
  exists m : nat, (m <= n)%nat /\ P (Z.of_nat m) = true
                  /\ forall k, 0 <= k < Z.of_nat m -> P k = false.
Proof.
  intros Hn. destruct (least_below P n) as [Hnone|(m & Hm & HPm & Hleast)].
  - exists n. repeat split; [lia | assumption ..].
  - exists m. repeat split; [lia | assumption ..].
Qed.

Section Mining.

Lemma mine_empty fuel now bc :
  TicketBlockchain.pending_transactions bc = [] ->
  TicketBlockchain.mine fuel now bc = Returns (bc, None).
Proof. unfold TicketBlockchain.mine. intros ->. reflexivity. Qed.

Lemma mine_nonempty fuel now bc tip :
  TicketBlockchain.pending_transactions bc <> [] ->
  last (TicketBlockchain.chain bc) = Some tip ->
  TicketBlockchain.mine fuel now bc =
  match TicketBlockchain.proof_of_work fuel (candidate now bc tip) with
  | Returns (new_block, h) =>
      Returns (after_mine bc (Block.set_hash h new_block), Some (Block.set_hash h new_block))
  | Raises e => Raises e
  | OutOfFuel => OutOfFuel
  end.
Proof.
  unfold TicketBlockchain.mine. intros Hp Htip.
  destruct (TicketBlockchain.pending_transactions bc) eqn:Hpend; [congruence|].
  rewrite Htip. unfold candidate. rewrite Hpend. reflexivity.
Qed.

(** Every way in which [mine] returns. *)
Lemma mine_returns fuel now bc bc' r :
  TicketBlockchain.mine fuel now bc = Returns (bc', r) ->
  (TicketBlockchain.pending_transactions bc = [] /\ bc' = bc /\ r = None)
  \/ exists tip n,
       TicketBlockchain.pending_transactions bc <> []
       /\ last (TicketBlockchain.chain bc) = Some tip
       /\ 0 <= n
       /\ TicketBlockchain.sealed (hash_at (candidate now bc tip) n) = true
       /\ bc' = after_mine bc (mined now bc tip n)
       /\ r = Some (mined now bc tip n).
Proof.
  intros Hm.
  destruct (TicketBlockchain.pending_transactions bc) as [|tx txs] eqn:Hpend.
  - rewrite mine_empty in Hm by assumption. injection Hm as <- <-. left. auto.
  - right. destruct (last (TicketBlockchain.chain bc)) as [tip|] eqn:Htip.
    + rewrite (mine_nonempty fuel now bc tip) in Hm by congruence.
      unfold TicketBlockchain.proof_of_work in Hm.
      destruct (TicketBlockchain.pow_loop fuel _) as [[nb h]| |] eqn:Hpow; try discriminate.
      apply pow_loop_returns in Hpow as (n & Hn & -> & -> & Hsealed).
      injection Hm as <- <-.
      exists tip, n. repeat split; [congruence | assumption ..].
    + unfold TicketBlockchain.mine in Hm. rewrite Hpend, Htip in Hm. discriminate.
Qed.

End Mining.

Section ChainInvariant.

Lemma chain_ok_init now : chain_ok (TicketBlockchain.chain (TicketBlockchain.init now)).
Proof.
  split; cbn [TicketBlockchain.chain TicketBlockchain.init
              TicketBlockchain.create_genesis_block TicketBlockchain.set_chain app].
  - discriminate.
  - intros [|i] b Hb; [|discriminate]. injection Hb as <-.
    cbn [Block.hash Block.set_hash]. by rewrite compute_hash_set_hash.
  - intros i b Hb. discriminate.
  - intros [|i] p b _ Hb; discriminate.
  - intros [|i] b Hb; [|discriminate]. injection Hb as <-. reflexivity.
Qed.

(** Appending a block that [mine] has built keeps the chain in order. *)
Lemma chain_ok_mined now bc tip n :
  chain_ok (TicketBlockchain.chain bc) ->
  last (TicketBlockchain.chain bc) = Some tip ->
  TicketBlockchain.sealed (hash_at (candidate now bc tip) n) = true ->
  chain_ok (TicketBlockchain.chain bc ++ [mined now bc tip n]).
Proof.
  intros [Hne Hhash Hsealed Hlink Hindex] Htip Hs.
  set (c := TicketBlockchain.chain bc) in *.
  assert (Hnew : Block.compute_hash (mined now bc tip n) = hash_at (candidate now bc tip) n)
    by apply compute_hash_set_hash.
  assert (Hlast : c !! pred (length c) = Some tip) by (by rewrite <- last_lookup).
  assert (Hlen : (0 < length c)%nat) by (destruct c; [congruence | simpl; lia]).
  split.
  - destruct c; discriminate.
  - intros i b Hb. apply lookup_app_Some in Hb as [Hb|[_ Hb]]; [eauto|].
    apply list_lookup_singleton_Some in Hb as [_ <-]. rewrite Hnew. reflexivity.
  - intros i b Hb. apply lookup_app_Some in Hb as [Hb|[_ Hb]]; [eauto|].
    apply list_lookup_singleton_Some in Hb as [_ <-]. rewrite Hnew. exact Hs.
  - intros i p b Hp Hb. apply lookup_app_Some in Hb as [Hb|[Hge Hb]].
    + apply lookup_app_Some in Hp as [Hp|[Hge _]]; [eauto|].
      apply lookup_lt_Some in Hb. lia.
    + apply list_lookup_singleton_Some in Hb as [Hi <-].
      apply lookup_app_Some in Hp as [Hp|[Hge' _]]; [|lia].
      replace i with (pred (length c)) in Hp by lia.
      rewrite Hlast in Hp. injection Hp as <-.
      rewrite (Hhash _ _ Hlast). reflexivity.
  - intros i b Hb. apply lookup_app_Some in Hb as [Hb|[Hge Hb]]; [eauto|].
    apply list_lookup_singleton_Some in Hb as [Hi <-].
    subst c. unfold mined, candidate.
    cbn [Block.index Block.set_hash Block.set_nonce Block.init]. lia.
Qed.

Lemma step_chain_ok bc bc' :
  step bc bc' -> chain_ok (TicketBlockchain.chain bc) -> chain_ok (TicketBlockchain.chain bc').
Proof.
  intros Hstep Hok. destruct Hstep as [uuid now owner event bc|now id new_owner bc|now id bc|fuel now bc bc' r Hm].
  - exact Hok.
  - unfold TicketBlockchain.transfer_ticket.
    destruct (TicketBlockchain.tickets bc !! id) as [tk|]; [|exact Hok].
    destruct (negb _); exact Hok.
  - unfold TicketBlockchain.redeem_ticket.
    destruct (TicketBlockchain.tickets bc !! id) as [tk|]; [|exact Hok].
    destruct (negb _); exact Hok.
  - apply mine_returns in Hm as [(_ & -> & _)|(tip & n & _ & Htip & _ & Hs & -> & _)];
      [exact Hok|].
    apply chain_ok_mined; assumption.
Qed.

Lemma reachable_chain_ok bc : reachable bc -> chain_ok (TicketBlockchain.chain bc).
Proof.
  intros [now Hrun]. revert bc Hrun.
  apply (rtc_ind_r (fun bc => chain_ok (TicketBlockchain.chain bc))).
  - apply chain_ok_init.
  - intros bc1 bc2 _ Hstep IH. exact (step_chain_ok bc1 bc2 Hstep IH).
Qed.


End ChainInvariant.

Section SessionFacts.

Lemma session_ledger0_reachable : reachable Session.ledger0.
Proof. exists Session.t0. apply rtc_refl. Qed.

Lemma session_mine :
  TicketBlockchain.mine 2 Session.t2 Session.ledger1
  = Returns (Session.ledger2, Some Session.block1).
Proof. vm_compute. reflexivity. Qed.

Lemma session_ledger2_reachable : reachable Session.ledger2.
Proof.
  exists Session.t0. eapply rtc_l.
  - apply (step_issue Session.id1 Session.t1 "Alice" "Concert A"). reflexivity.
  - eapply rtc_l; [|apply rtc_refl]. eapply step_mine. exact session_mine.
Defined.

End SessionFacts.

(** *** Claim C1 *)

(** C1, as stated, fails on the genesis block: [create_genesis_block] stores
    the hash of the block at nonce 0 and runs no proof of work.  In the
    session the ledger as constructed is reachable, and its block 0 has a
    stored hash that begins with "50", so it is not sealed. *)
Lemma genesis_block_not_sealed :
  reachable Session.ledger0
  /\ exists b, TicketBlockchain.chain Session.ledger0 !! 0%nat = Some b
               /\ Block.index b = 0
               /\ ~ block_valid b.
Proof.
  split; [exists Session.t0; apply rtc_refl|].
  exists Session.genesis. split; [vm_compute; reflexivity|]. split; [reflexivity|].
  intros [_ Hsealed]. vm_compute in Hsealed. discriminate.
Qed.

(** C1 (amended): in every reachable ledger, every block of the chain,
    the genesis block included, stores the hash recomputed from its fields;
    and for every block after the genesis block that hash begins with
    [difficulty] = 2 zero characters. *)
Theorem chain_blocks_valid bc i b :
  reachable bc ->
  TicketBlockchain.chain bc !! i = Some b ->
  Block.hash b = Some (Block.compute_hash b)
  /\ ((0 < i)%nat -> block_valid b
                     /\ startswith (Block.compute_hash b) "00" = true).
Proof.
  intros Hreach Hb. destruct (reachable_chain_ok bc Hreach) as [_ Hhash Hsealed _ _].
  split; [eauto|]. intros Hi. destruct i as [|i]; [lia|].
  pose proof (Hsealed i b Hb) as Hs. repeat split; [eauto | exact Hs | exact Hs].
Qed.

Lemma chain_blocks_valid_witness :
  reachable Session.ledger2
  /\ TicketBlockchain.chain Session.ledger2 !! 1%nat = Some Session.block1
  /\ Block.hash Session.block1 = Some (Block.compute_hash Session.block1)
  /\ ((0 < 1)%nat -> block_valid Session.block1
                     /\ startswith (Block.compute_hash Session.block1) "00" = true).
Proof.
  split; [exact session_ledger2_reachable|]. split; [reflexivity|].
  apply (chain_blocks_valid Session.ledger2 1 Session.block1);
    [exact session_ledger2_reachable | reflexivity].
Defined.

(** *** Claim C2 *)

(** C2: in every reachable ledger, for every index [i > 0], the
    [previous_hash] of [chain[i]] is the hash stored on [chain[i-1]]. *)
Theorem chain_linkage bc i b :
  reachable bc ->
  (0 < i)%nat ->
  TicketBlockchain.chain bc !! i = Some b ->
  exists p, TicketBlockchain.chain bc !! (i - 1)%nat = Some p
            /\ Block.hash p = Some (Block.previous_hash b).
Proof.
  intros Hreach Hi Hb. destruct (reachable_chain_ok bc Hreach) as [_ _ _ Hlink _].
  destruct i as [|i]; [lia|]. replace (S i - 1)%nat with i by lia.
  destruct (TicketBlockchain.chain bc !! i) as [p|] eqn:Hp.
  - exists p. split; [reflexivity|]. exact (Hlink i p b Hp Hb).
  - apply lookup_ge_None in Hp. apply lookup_lt_Some in Hb. lia.
Qed.

Lemma chain_linkage_witness :
  reachable Session.ledger2
  /\ (0 < 1)%nat
  /\ TicketBlockchain.chain Session.ledger2 !! 1%nat = Some Session.block1
  /\ exists p, TicketBlockchain.chain Session.ledger2 !! (1 - 1)%nat = Some p
               /\ Block.hash p = Some (Block.previous_hash Session.block1).
Proof.
  split; [exact session_ledger2_reachable|]. split; [lia|]. split; [reflexivity|].
  apply (chain_linkage Session.ledger2 1 Session.block1);
    [exact session_ledger2_reachable | lia | reflexivity].
Defined.

(** *** Claim C9 *)

(** C9: [proof_of_work] searches the nonces 0, 1, 2, .. in turn.  If the
    hash of the block is sealed at some nonce [n], there is a least such
    nonce [m]; a run whose loop body may execute [m] times or more returns
    the hash at [m] and leaves the block with nonce [m], and a run with less
    fuel is still searching. *)
Theorem proof_of_work_least_nonce (block : Block.t) (n : Z) :
  0 <= n ->
  TicketBlockchain.sealed (hash_at block n) = true ->
  exists m,
    0 <= m <= n
    /\ TicketBlockchain.sealed (hash_at block m) = true
    /\ (forall k, 0 <= k < m -> TicketBlockchain.sealed (hash_at block k) = false)
    /\ forall fuel,
         TicketBlockchain.proof_of_work fuel block =
         if (Z.to_nat m <=? fuel)%nat
         then Returns (Block.set_nonce m block, hash_at block m)
         else OutOfFuel.
Proof.
  intros Hn Hs.
  destruct (least_true (fun k => TicketBlockchain.sealed (hash_at block k)) (Z.to_nat n))
    as (m & Hm & Hsm & Hleast).
  { rewrite Z2Nat.id by lia. exact Hs. }
  exists (Z.of_nat m). repeat split; [lia | lia | exact Hsm | exact Hleast |].
  intros fuel. unfold TicketBlockchain.proof_of_work.
  rewrite (pow_loop_search block m 0 fuel).
  - rewrite Nat2Z.id. reflexivity.
  - intros k Hk. apply Hleast. lia.
  - exact Hsm.
Qed.

Lemma proof_of_work_least_nonce_witness :
  0 <= 2
  /\ TicketBlockchain.sealed
       (hash_at (candidate Session.t2 Session.ledger1 Session.genesis) 2) = true
  /\ exists m,
       0 <= m <= 2
       /\ TicketBlockchain.sealed
            (hash_at (candidate Session.t2 Session.ledger1 Session.genesis) m) = true
       /\ (forall k, 0 <= k < m ->
             TicketBlockchain.sealed
               (hash_at (candidate Session.t2 Session.ledger1 Session.genesis) k) = false)
       /\ forall fuel,
            TicketBlockchain.proof_of_work fuel
              (candidate Session.t2 Session.ledger1 Session.genesis) =
            if (Z.to_nat m <=? fuel)%nat
            then Returns (Block.set_nonce m (candidate Session.t2 Session.ledger1 Session.genesis),
                          hash_at (candidate Session.t2 Session.ledger1 Session.genesis) m)
            else OutOfFuel.
Proof.
  split; [lia|]. split; [vm_compute; reflexivity|].
  apply (proof_of_work_least_nonce (candidate Session.t2 Session.ledger1 Session.genesis) 2);
    [lia | vm_compute; reflexivity].
Defined.

(** *** Ticket operations *)

Section TicketOperations.

Variable bc : TicketBlockchain.t.
Variable ticket_id : string.

Lemma transfer_ticket_valid now new_owner tk :
  TicketBlockchain.tickets bc !! ticket_id = Some tk ->
  Ticket.status tk = "valid" ->
  TicketBlockchain.transfer_ticket now ticket_id new_owner bc =
  (TicketBlockchain.Build
     (TicketBlockchain.chain bc)
     (TicketBlockchain.pending_transactions bc
        ++ [TicketTransaction.Build "transfer" ticket_id (Ticket.owner tk) None
              (Some new_owner) now])
     (<[ticket_id := Ticket.set_owner new_owner tk]> (TicketBlockchain.tickets bc)),
   true).
Proof.
  intros Htk Hvalid. unfold TicketBlockchain.transfer_ticket.
  rewrite Htk, Hvalid. reflexivity.
Qed.

Lemma redeem_ticket_valid now tk :
  TicketBlockchain.tickets bc !! ticket_id = Some tk ->
  Ticket.status tk = "valid" ->
  TicketBlockchain.redeem_ticket now ticket_id bc =
  (TicketBlockchain.Build
     (TicketBlockchain.chain bc)
     (TicketBlockchain.pending_transactions bc
        ++ [TicketTransaction.Build "redeem" ticket_id (Ticket.owner tk) None None now])
     (<[ticket_id := Ticket.set_status "redeemed" tk]> (TicketBlockchain.tickets bc)),
   true).
Proof.
  intros Htk Hvalid. unfold TicketBlockchain.redeem_ticket.
  rewrite Htk, Hvalid. reflexivity.
Qed.

Lemma transfer_ticket_rejected now new_owner :
  rejected bc ticket_id -> TicketBlockchain.transfer_ticket now ticket_id new_owner bc = (bc, false).
Proof.
  unfold TicketBlockchain.transfer_ticket. intros [->|(tk & -> & Hst)]; [reflexivity|].
  apply String.eqb_neq in Hst. rewrite Hst. reflexivity.
Qed.

Lemma redeem_ticket_rejected now :
  rejected bc ticket_id -> TicketBlockchain.redeem_ticket now ticket_id bc = (bc, false).
Proof.
  unfold TicketBlockchain.redeem_ticket. intros [->|(tk & -> & Hst)]; [reflexivity|].
  apply String.eqb_neq in Hst. rewrite Hst. reflexivity.
Qed.

(** A call that returns [True] found the ticket valid. *)
Lemma transfer_ticket_true now new_owner bc' :
  TicketBlockchain.transfer_ticket now ticket_id new_owner bc = (bc', true) ->
  exists tk, TicketBlockchain.tickets bc !! ticket_id = Some tk /\ Ticket.status tk = "valid".
Proof.
  unfold TicketBlockchain.transfer_ticket.
  destruct (TicketBlockchain.tickets bc !! ticket_id) as [tk|]; [|discriminate].
  destruct (String.eqb (Ticket.status tk) "valid") eqn:Hst; [|discriminate].
  intros _. exists tk. split; [reflexivity|]. by apply String.eqb_eq.
Qed.

Lemma redeem_ticket_true now bc' :
  TicketBlockchain.redeem_ticket now ticket_id bc = (bc', true) ->
  exists tk, TicketBlockchain.tickets bc !! ticket_id = Some tk /\ Ticket.status tk = "valid".
Proof.
  unfold TicketBlockchain.redeem_ticket.
  destruct (TicketBlockchain.tickets bc !! ticket_id) as [tk|]; [|discriminate].
  destruct (String.eqb (Ticket.status tk) "valid") eqn:Hst; [|discriminate].
  intros _. exists tk. split; [reflexivity|]. by apply String.eqb_eq.
Qed.

End TicketOperations.

(** *** Claim C4 *)

(** C4: when [ticket_id] is absent from the ticket index, or its status is
    not "valid", [transfer_ticket] and [redeem_ticket] both return [False]
    and leave the ledger (index, pending pool and chain) as it was. *)
Theorem invalid_ticket_rejected bc ticket_id now new_owner :
  TicketBlockchain.tickets bc !! ticket_id = None
  \/ (exists tk, TicketBlockchain.tickets bc !! ticket_id = Some tk
                 /\ Ticket.status tk <> "valid") ->
  TicketBlockchain.transfer_ticket now ticket_id new_owner bc = (bc, false)
  /\ TicketBlockchain.redeem_ticket now ticket_id bc = (bc, false).
Proof.
  intros Hrej. split;
    [apply transfer_ticket_rejected | apply redeem_ticket_rejected]; exact Hrej.
Qed.

Lemma invalid_ticket_rejected_witness :
  (TicketBlockchain.tickets Session.ledger4 !! Session.id1 = None
   \/ (exists tk, TicketBlockchain.tickets Session.ledger4 !! Session.id1 = Some tk
                  /\ Ticket.status tk <> "valid"))
  /\ TicketBlockchain.transfer_ticket Session.t4 Session.id1 "Carol" Session.ledger4
     = (Session.ledger4, false)
  /\ TicketBlockchain.redeem_ticket Session.t4 Session.id1 Session.ledger4
     = (Session.ledger4, false).
Proof.
  assert (Hrej : TicketBlockchain.tickets Session.ledger4 !! Session.id1 = None
                 \/ (exists tk, TicketBlockchain.tickets Session.ledger4 !! Session.id1 = Some tk
                                /\ Ticket.status tk <> "valid")).
  { right. exists (Ticket.Build "Bob" "redeemed" "Concert A").
    split; [vm_compute; reflexivity | discriminate]. }
  split; [exact Hrej|].
  exact (invalid_ticket_rejected Session.ledger4 Session.id1 Session.t4 "Carol" Hrej).
Defined.

(** *** Claim C6 *)

(** C6: [issue_ticket] returns for every owner and event.  It appends one
    issue transaction to the pending pool, stores [{owner, "valid", event}]
    in the ticket index under the identifier it returns, and a
    [verify_ticket] of that identifier in the resulting ledger, with no
    mining in between, returns exactly that entry. *)
Theorem issue_ticket_then_verify uuid now owner event bc :
  let r := TicketBlockchain.issue_ticket uuid now owner event bc in
  snd r = uuid
  /\ TicketBlockchain.pending_transactions (fst r) =
     (TicketBlockchain.pending_transactions bc
        ++ [TicketTransaction.Build "issue" (snd r) owner (Some event) None now])
  /\ TicketBlockchain.tickets (fst r) =
     <[snd r := Ticket.Build owner "valid" event]> (TicketBlockchain.tickets bc)
  /\ TicketBlockchain.chain (fst r) = TicketBlockchain.chain bc
  /\ TicketBlockchain.verify_ticket (snd r) (fst r) = Some (Ticket.Build owner "valid" event).
Proof.
  cbn. repeat split. unfold TicketBlockchain.verify_ticket. cbn.
  apply lookup_insert_eq.
Qed.

(** *** Claim C7 *)

(** C7: with an empty pending pool, [mine] returns [None] and the ledger
    is the one it was called on: nothing is appended to the chain, and no
    search is run, whatever the fuel. *)
Theorem mine_empty_pool_noop fuel now bc :
  TicketBlockchain.pending_transactions bc = [] ->
  TicketBlockchain.mine fuel now bc = Returns (bc, None).
Proof.
  intros Hpend. unfold TicketBlockchain.mine.
  destruct (TicketBlockchain.pending_transactions bc) as [|tx txs]; [reflexivity|].
  discriminate Hpend.
Qed.

Lemma mine_empty_pool_noop_witness :
  TicketBlockchain.pending_transactions Session.ledger2 = []
  /\ TicketBlockchain.mine 0 Session.t3 Session.ledger2 = Returns (Session.ledger2, None).
Proof.
  split; [reflexivity|].
  apply (mine_empty_pool_noop 0 Session.t3 Session.ledger2). reflexivity.
Defined.

(** *** Claim C3 *)

(** C3: with a pending pool that is not empty, on a ledger whose chain has a
    tip, and when the search of [proof_of_work] can succeed (some nonce [n]
    seals the candidate block), [mine] returns once its loop may run as far
    as the least sealing nonce [m].  The block [b] it returns has the length
    of the chain as its index and the pending transactions, as they are, as
    its transactions; the ledger it leaves has [b] appended to the chain and
    an empty pending pool.  The pool itself grows at its end, one
    transaction per [add_transaction]. *)
Theorem mine_seals_pending now bc tip n :
  TicketBlockchain.pending_transactions bc <> [] ->
  last (TicketBlockchain.chain bc) = Some tip ->
  0 <= n ->
  TicketBlockchain.sealed (hash_at (candidate now bc tip) n) = true ->
  exists m b,
    0 <= m <= n
    /\ (forall fuel,
          TicketBlockchain.mine fuel now bc =
          if (Z.to_nat m <=? fuel)%nat then Returns (after_mine bc b, Some b) else OutOfFuel)
    /\ Block.index b = Z.of_nat (length (TicketBlockchain.chain bc))
    /\ Block.transactions b = TicketBlockchain.pending_transactions bc
    /\ TicketBlockchain.chain (after_mine bc b) = (TicketBlockchain.chain bc ++ [b])
    /\ TicketBlockchain.pending_transactions (after_mine bc b) = []
    /\ TicketBlockchain.tickets (after_mine bc b) = TicketBlockchain.tickets bc
    /\ forall tx,
         TicketBlockchain.pending_transactions (TicketBlockchain.add_transaction tx bc)
         = TicketBlockchain.pending_transactions bc ++ [tx].
Proof.
  intros Hpend Htip Hn Hs.
  destruct (least_true (fun k => TicketBlockchain.sealed (hash_at (candidate now bc tip) k))
              (Z.to_nat n)) as (m & Hm & Hsm & Hleast).
  { rewrite Z2Nat.id by lia. exact Hs. }
  exists (Z.of_nat m), (mined now bc tip (Z.of_nat m)).
  repeat split; try lia.
  intros fuel. rewrite (mine_nonempty fuel now bc tip Hpend Htip).
  unfold TicketBlockchain.proof_of_work.
  rewrite (pow_loop_search (candidate now bc tip) m 0 fuel).
  - rewrite Nat2Z.id. destruct (m <=? fuel)%nat; reflexivity.
  - intros k Hk. apply Hleast. lia.
  - exact Hsm.
Qed.

Lemma mine_seals_pending_witness :
  TicketBlockchain.pending_transactions Session.ledger1 <> []
  /\ last (TicketBlockchain.chain Session.ledger1) = Some Session.genesis
  /\ 0 <= 2
  /\ TicketBlockchain.sealed
       (hash_at (candidate Session.t2 Session.ledger1 Session.genesis) 2) = true
  /\ exists m b,
       0 <= m <= 2
       /\ (forall fuel,
             TicketBlockchain.mine fuel Session.t2 Session.ledger1 =
             if (Z.to_nat m <=? fuel)%nat
             then Returns (after_mine Session.ledger1 b, Some b) else OutOfFuel)
       /\ Block.index b = Z.of_nat (length (TicketBlockchain.chain Session.ledger1))
       /\ Block.transactions b = TicketBlockchain.pending_transactions Session.ledger1
       /\ TicketBlockchain.chain (after_mine Session.ledger1 b)
          = (TicketBlockchain.chain Session.ledger1 ++ [b])
       /\ TicketBlockchain.pending_transactions (after_mine Session.ledger1 b) = []
       /\ TicketBlockchain.tickets (after_mine Session.ledger1 b)
          = TicketBlockchain.tickets Session.ledger1
       /\ forall tx,
            TicketBlockchain.pending_transactions
              (TicketBlockchain.add_transaction tx Session.ledger1)
            = TicketBlockchain.pending_transactions Session.ledger1 ++ [tx].
Proof.
  split; [discriminate|]. split; [vm_compute; reflexivity|]. split; [lia|].
  split; [vm_compute; reflexivity|].
  apply (mine_seals_pending Session.t2 Session.ledger1 Session.genesis 2);
    [discriminate | vm_compute; reflexivity | lia | vm_compute; reflexivity].
Defined.

(** *** Claim C10 *)

(** C10: on a valid ticket, [transfer_ticket] returns [True] and changes, in
    the ticket index, the owner of that ticket's entry and nothing else
    (same status, same event, same entries under all other identifiers);
    [redeem_ticket] returns [True] and changes the status of that entry and
    nothing else.  Neither touches the chain.  After a transfer the ticket
    is still valid: a further transfer and a redemption both succeed. *)
Theorem ticket_updates_frame bc ticket_id tk :
  TicketBlockchain.tickets bc !! ticket_id = Some tk ->
  Ticket.status tk = "valid" ->
  (forall now new_owner,
     let r := TicketBlockchain.transfer_ticket now ticket_id new_owner bc in
     snd r = true
     /\ TicketBlockchain.tickets (fst r) !! ticket_id
        = Some (Ticket.Build new_owner (Ticket.status tk) (Ticket.event tk))
     /\ (forall other, other <> ticket_id ->
           TicketBlockchain.tickets (fst r) !! other = TicketBlockchain.tickets bc !! other)
     /\ TicketBlockchain.chain (fst r) = TicketBlockchain.chain bc
     /\ (forall now' new_owner',
           snd (TicketBlockchain.transfer_ticket now' ticket_id new_owner' (fst r)) = true)
     /\ (forall now', snd (TicketBlockchain.redeem_ticket now' ticket_id (fst r)) = true))
  /\ (forall now,
        let r := TicketBlockchain.redeem_ticket now ticket_id bc in
        snd r = true
        /\ TicketBlockchain.tickets (fst r) !! ticket_id
           = Some (Ticket.Build (Ticket.owner tk) "redeemed" (Ticket.event tk))
        /\ (forall other, other <> ticket_id ->
              TicketBlockchain.tickets (fst r) !! other = TicketBlockchain.tickets bc !! other)
        /\ TicketBlockchain.chain (fst r) = TicketBlockchain.chain bc).
Proof.
  intros Htk Hvalid. split.
  - intros now new_owner r. subst r.
    rewrite (transfer_ticket_valid bc ticket_id now new_owner tk Htk Hvalid).
    match goal with |- context [fst (?b, true)] => set (bc1 := b) end.
    cbn [fst snd].
    assert (Hnew : TicketBlockchain.tickets bc1 !! ticket_id
                   = Some (Ticket.set_owner new_owner tk))
      by apply lookup_insert_eq.
    repeat split.
    + exact Hnew.
    + intros other Hne. by apply lookup_insert_ne.
    + intros now' new_owner'.
      by rewrite (transfer_ticket_valid bc1 ticket_id now' new_owner' _ Hnew Hvalid).
    + intros now'. by rewrite (redeem_ticket_valid bc1 ticket_id now' _ Hnew Hvalid).
  - intros now r. subst r.
    rewrite (redeem_ticket_valid bc ticket_id now tk Htk Hvalid).
    cbn [fst snd TicketBlockchain.tickets TicketBlockchain.chain].
    repeat split.
    + apply lookup_insert_eq.
    + intros other Hne. by apply lookup_insert_ne.
Qed.

Lemma ticket_updates_frame_witness :
  TicketBlockchain.tickets Session.ledger2 !! Session.id1
  = Some (Ticket.Build "Alice" "valid" "Concert A")
  /\ Ticket.status (Ticket.Build "Alice" "valid" "Concert A") = "valid"
  /\ TicketBlockchain.tickets Session.ledger3 !! Session.id1
     = Some (Ticket.Build "Bob" "valid" "Concert A")
  /\ TicketBlockchain.chain Session.ledger3 = TicketBlockchain.chain Session.ledger2
  /\ snd (TicketBlockchain.redeem_ticket Session.t4 Session.id1 Session.ledger3) = true.
Proof.
  assert (Htk : TicketBlockchain.tickets Session.ledger2 !! Session.id1
                = Some (Ticket.Build "Alice" "valid" "Concert A"))
    by (vm_compute; reflexivity).
  destruct (ticket_updates_frame Session.ledger2 Session.id1 _ Htk eq_refl) as [Htransfer _].
  destruct (Htransfer Session.t3 "Bob") as (_ & Hentry & _ & Hchain & _ & Hredeem).
  split; [exact Htk|]. split; [reflexivity|].
  split; [exact Hentry|]. split; [exact Hchain|]. apply Hredeem.
Defined.

(** *** Claim C5 *)

Section Terminal.

Variable ticket_id : string.

Lemma redeemed_rejected bc : redeemed ticket_id bc -> rejected bc ticket_id.
Proof.
  intros (tk & Htk & Hst). right. exists tk. split; [exact Htk|].
  rewrite Hst. discriminate.
Qed.

Lemma history_snoc_other (txs : list TicketTransaction.t) tx :
  TicketTransaction.ticket_id tx <> ticket_id ->
  filter (fun tx => TicketTransaction.ticket_id tx = ticket_id) (txs ++ [tx]) =
  filter (fun tx => TicketTransaction.ticket_id tx = ticket_id) txs.
Proof.
  intros Hne. rewrite filter_app, filter_cons_False by exact Hne.
  rewrite filter_nil. apply app_nil_r.
Qed.

(** No step takes a redeemed ticket out of that state, and none records a
    transaction for it. *)
Lemma step_redeemed bc bc' :
  step bc bc' ->
  redeemed ticket_id bc ->
  redeemed ticket_id bc' /\ ticket_history ticket_id bc' = ticket_history ticket_id bc.
Proof.
  intros Hstep Hred.
  destruct Hstep as [uuid now owner event bc Hfresh|now id new_owner bc|now id bc
                    |fuel now bc bc' r Hm].
  - assert (Hne : uuid <> ticket_id).
    { intros ->. destruct Hred as (tk & Htk & _). congruence. }
    split.
    + destruct Hred as (tk & Htk & Hst). exists tk. split; [|exact Hst].
      cbn. by rewrite lookup_insert_ne.
    + unfold ticket_history. cbn. rewrite app_assoc. by apply history_snoc_other.
  - destruct (decide (id = ticket_id)) as [->|Hne].
    { rewrite transfer_ticket_rejected by by apply redeemed_rejected. by split. }
    unfold TicketBlockchain.transfer_ticket.
    destruct (TicketBlockchain.tickets bc !! id) as [tk'|]; [|by split].
    destruct (negb _); [by split|]. split.
    + destruct Hred as (tk & Htk & Hst). exists tk. split; [|exact Hst].
      cbn. by rewrite lookup_insert_ne.
    + unfold ticket_history. cbn. rewrite app_assoc. by apply history_snoc_other.
  - destruct (decide (id = ticket_id)) as [->|Hne].
    { rewrite redeem_ticket_rejected by by apply redeemed_rejected. by split. }
    unfold TicketBlockchain.redeem_ticket.
    destruct (TicketBlockchain.tickets bc !! id) as [tk'|]; [|by split].
    destruct (negb _); [by split|]. split.
    + destruct Hred as (tk & Htk & Hst). exists tk. split; [|exact Hst].
      cbn. by rewrite lookup_insert_ne.
    + unfold ticket_history. cbn. rewrite app_assoc. by apply history_snoc_other.
  - apply mine_returns in Hm as [(_ & -> & _)|(tip & n & _ & _ & _ & _ & -> & _)];
      [by split|].
    split; [exact Hred|].
    unfold ticket_history, after_mine. cbn.
    rewrite flat_map_app. cbn. by rewrite !app_nil_r.
Qed.

Lemma run_redeemed bc bc' :
  rtc step bc bc' ->
  redeemed ticket_id bc ->
  redeemed ticket_id bc' /\ ticket_history ticket_id bc' = ticket_history ticket_id bc.
Proof.
  intros Hrun Hred. revert bc' Hrun.
  apply (rtc_ind_r (fun bc' => redeemed ticket_id bc'
                               /\ ticket_history ticket_id bc' = ticket_history ticket_id bc)).
  - by split.
  - intros bc1 bc2 _ Hstep [Hred1 Hhist1].
    destruct (step_redeemed bc1 bc2 Hstep Hred1) as [Hred2 Hhist2].
    split; [exact Hred2 | congruence].
Qed.

End Terminal.

(** C5: once [redeem_ticket] has returned [True], the ticket's status is
    "redeemed"; a second [redeem_ticket] returns [False]; and in every
    ledger reached from there by any calls, [transfer_ticket] and
    [redeem_ticket] on that ticket return [False] and change nothing, and the
    transactions that the ledger holds for the ticket (sealed or pending) are
    those it held right after the redemption. *)
Theorem redeem_is_terminal bc now ticket_id bc1 :
  TicketBlockchain.redeem_ticket now ticket_id bc = (bc1, true) ->
  redeemed ticket_id bc1
  /\ (forall now', TicketBlockchain.redeem_ticket now' ticket_id bc1 = (bc1, false))
  /\ forall bc2, rtc step bc1 bc2 ->
       (forall now' new_owner,
          TicketBlockchain.transfer_ticket now' ticket_id new_owner bc2 = (bc2, false))
       /\ (forall now', TicketBlockchain.redeem_ticket now' ticket_id bc2 = (bc2, false))
       /\ ticket_history ticket_id bc2 = ticket_history ticket_id bc1.
Proof.
  intros Hredeem.
  assert (Hred : redeemed ticket_id bc1).
  { destruct (redeem_ticket_true bc ticket_id now bc1 Hredeem) as (tk & Htk & Hvalid).
    rewrite (redeem_ticket_valid bc ticket_id now tk Htk Hvalid) in Hredeem.
    injection Hredeem as <-. exists (Ticket.set_status "redeemed" tk).
    split; [apply lookup_insert_eq | reflexivity]. }
  split; [exact Hred|]. split.
  - intros now'. apply redeem_ticket_rejected, redeemed_rejected, Hred.
  - intros bc2 Hrun. destruct (run_redeemed ticket_id bc1 bc2 Hrun Hred) as [Hred2 Hhist].
    repeat split.
    + intros now' new_owner. apply transfer_ticket_rejected, redeemed_rejected, Hred2.
    + intros now'. apply redeem_ticket_rejected, redeemed_rejected, Hred2.
    + exact Hhist.
Qed.

Lemma redeem_is_terminal_witness :
  TicketBlockchain.redeem_ticket Session.t4 Session.id1 Session.ledger3
  = (Session.ledger4, true)
  /\ rtc step Session.ledger4 Session.ledger5
  /\ redeemed Session.id1 Session.ledger4
  /\ TicketBlockchain.redeem_ticket Session.t5 Session.id1 Session.ledger4
     = (Session.ledger4, false)
  /\ TicketBlockchain.transfer_ticket Session.t5 Session.id1 "Carol" Session.ledger5
     = (Session.ledger5, false)
  /\ ticket_history Session.id1 Session.ledger5 = ticket_history Session.id1 Session.ledger4.
Proof.
  assert (Hredeem : TicketBlockchain.redeem_ticket Session.t4 Session.id1 Session.ledger3
                    = (Session.ledger4, true)) by (vm_compute; reflexivity).
  assert (Hrun : rtc step Session.ledger4 Session.ledger5).
  { apply rtc_once. apply (step_issue Session.id2 Session.t5 "Dave" "Concert B").
    vm_compute. reflexivity. }
  destruct (redeem_is_terminal Session.ledger3 Session.t4 Session.id1 Session.ledger4 Hredeem)
    as (Hred & Hagain & Hlater).
  destruct (Hlater Session.ledger5 Hrun) as (Htransfer & _ & Hhist).
  split; [exact Hredeem|]. split; [exact Hrun|]. split; [exact Hred|].
  split; [apply Hagain|]. split; [apply Htransfer | exact Hhist].
Defined.

(** *** Claim C8 *)

Section Serialization.

Lemma dumps_Dict items :
  Json.dumps (Json.Dict items) =
  "{" +:+ String.concat ", "
            (map Json.item_text
               (Json.sort_items (map (fun kv => (fst kv, Json.dumps (snd kv))) items)))
      +:+ "}".
Proof. reflexivity. Qed.

Lemma dumps_List l :
  Json.dumps (Json.List l) = "[" +:+ String.concat ", " (map Json.dumps l) +:+ "]".
Proof. reflexivity. Qed.

Lemma dumps_Str s : Json.dumps (Json.Str s) = Json.encode_basestring_ascii s.
Proof. reflexivity. Qed.

Lemma dumps_Int z : Json.dumps (Json.Int z) = Json.int_repr z.
Proof. reflexivity. Qed.

Lemma dumps_Float f : Json.dumps (Json.Float f) = float_repr f.
Proof. reflexivity. Qed.

Lemma dumps_opt_str o : Json.dumps (TicketTransaction.opt_str o) = Canonical.opt_text o.
Proof. destruct o; reflexivity. Qed.

Lemma append_assoc (s1 s2 s3 : string) : (s1 +:+ s2) +:+ s3 = s1 +:+ (s2 +:+ s3).
Proof.
  induction s1 as [|c s1 IH]; [reflexivity|].
  change (String c ((s1 +:+ s2) +:+ s3) = String c (s1 +:+ (s2 +:+ s3))).
  by rewrite IH.
Qed.

(** [sort_keys] puts the six attributes of a transaction in key order. *)
Lemma sort_transaction_items {A : Type} (v1 v2 v3 v4 v5 v6 : A) :
  Json.sort_items
    [("tx_type", v1); ("ticket_id", v2); ("owner", v3); ("event", v4);
     ("new_owner", v5); ("timestamp", v6)]
  = [("event", v4); ("new_owner", v5); ("owner", v3); ("ticket_id", v2);
     ("timestamp", v6); ("tx_type", v1)].
Proof. reflexivity. Qed.

(** And the five entries of a block. *)
Lemma sort_block_items {A : Type} (v1 v2 v3 v4 v5 : A) :
  Json.sort_items
    [("index", v1); ("transactions", v2); ("timestamp", v3); ("previous_hash", v4);
     ("nonce", v5)]
  = [("index", v1); ("nonce", v5); ("previous_hash", v4); ("timestamp", v3);
     ("transactions", v2)].
Proof. reflexivity. Qed.

Lemma dumps_to_dict tx :
  Json.dumps (TicketTransaction.to_dict tx) = Canonical.transaction tx.
Proof.
  unfold TicketTransaction.to_dict, Canonical.transaction, Canonical.key, Canonical.text.
  rewrite dumps_Dict. cbn [map fst snd].
  rewrite sort_transaction_items, !dumps_Str, !dumps_opt_str, dumps_Float.
  cbn [map String.concat]. unfold Json.item_text. cbn [fst snd].
  by rewrite !append_assoc.
Qed.

Lemma block_string_canonical b : Block.block_string b = Canonical.block b.
Proof.
  unfold Block.block_string, Canonical.block, Canonical.key, Canonical.text.
  rewrite dumps_Dict. cbn [map fst snd].
  rewrite sort_block_items, dumps_Str, !dumps_Int, dumps_Float.
  rewrite dumps_List, map_map, (map_ext _ _ dumps_to_dict).
  cbn [map String.concat]. unfold Json.item_text. cbn [fst snd].
  by rewrite !append_assoc.
Qed.

End Serialization.

(** C8: the hash of a block is the SHA-256 hex digest of the canonical
    serialization of its index, transactions, timestamp, previous hash and
    nonce: map keys in sorted order, each transaction with its six fields,
    the transactions in list order.  It is a function of those five values:
    blocks that agree on them have the same hash, whatever hash they store. *)
Theorem compute_hash_canonical b :
  Block.compute_hash b = sha256_hexdigest (Canonical.block b)
  /\ forall b', same_fields b' b -> Block.compute_hash b' = Block.compute_hash b.
Proof.
  split.
  - unfold Block.compute_hash. by rewrite block_string_canonical.
  - intros b' (Hi & Htx & Hts & Hprev & Hnonce).
    unfold Block.compute_hash, Block.block_string.
    by rewrite Hi, Htx, Hts, Hprev, Hnonce.
Qed.

Lemma compute_hash_canonical_witness :
  same_fields (Block.set_nonce 2 (candidate Session.t2 Session.ledger1 Session.genesis))
    Session.block1
  /\ Block.compute_hash Session.block1 = sha256_hexdigest (Canonical.block Session.block1)
  /\ Block.compute_hash (Block.set_nonce 2 (candidate Session.t2 Session.ledger1 Session.genesis))
     = Block.compute_hash Session.block1.
Proof.
  assert (Hsame : same_fields
                    (Block.set_nonce 2 (candidate Session.t2 Session.ledger1 Session.genesis))
                    Session.block1) by (repeat split).
  destruct (compute_hash_canonical Session.block1) as [Hcanon Hdet].
  split; [exact Hsame|]. split; [exact Hcanon | exact (Hdet _ Hsame)].
Defined.

(** ** Further properties of the ledger *)

Section StepEffects.

(** What one step does to the ledger: nothing, or one of the three records
    with its update of the index, or one new block. *)
Lemma step_effect bc bc' :
  step bc bc' ->
  bc' = bc
  \/ (exists uuid now owner event,
        TicketBlockchain.tickets bc !! uuid = None
        /\ bc' = TicketBlockchain.Build (TicketBlockchain.chain bc)
                   (TicketBlockchain.pending_transactions bc
                      ++ [TicketTransaction.Build "issue" uuid owner (Some event) None now])
                   (<[uuid := Ticket.Build owner "valid" event]> (TicketBlockchain.tickets bc)))
  \/ (exists now id new_owner tk,
        TicketBlockchain.tickets bc !! id = Some tk /\ Ticket.status tk = "valid"
        /\ bc' = TicketBlockchain.Build (TicketBlockchain.chain bc)
                   (TicketBlockchain.pending_transactions bc
                      ++ [TicketTransaction.Build "transfer" id (Ticket.owner tk) None
                            (Some new_owner) now])
                   (<[id := Ticket.set_owner new_owner tk]> (TicketBlockchain.tickets bc)))
  \/ (exists now id tk,
        TicketBlockchain.tickets bc !! id = Some tk /\ Ticket.status tk = "valid"
        /\ bc' = TicketBlockchain.Build (TicketBlockchain.chain bc)
                   (TicketBlockchain.pending_transactions bc
                      ++ [TicketTransaction.Build "redeem" id (Ticket.owner tk) None None now])
                   (<[id := Ticket.set_status "redeemed" tk]> (TicketBlockchain.tickets bc)))
  \/ (exists now tip n,
        TicketBlockchain.pending_transactions bc <> []
        /\ last (TicketBlockchain.chain bc) = Some tip
        /\ TicketBlockchain.sealed (hash_at (candidate now bc tip) n) = true
        /\ bc' = after_mine bc (mined now bc tip n)).
Proof.
  intros Hstep.
  destruct Hstep as [uuid now owner event bc Hfresh|now id new_owner bc|now id bc
                    |fuel now bc bc' r Hm].
  - right; left. exists uuid, now, owner, event. split; [exact Hfresh | reflexivity].
  - destruct (TicketBlockchain.tickets bc !! id) as [tk|] eqn:Htk.
    + destruct (decide (Ticket.status tk = "valid")) as [Hvalid|Hinvalid].
      * do 2 right; left. exists now, id, new_owner, tk.
        rewrite (transfer_ticket_valid bc id now new_owner tk Htk Hvalid). auto.
      * left. rewrite transfer_ticket_rejected; [reflexivity|]. right. eauto.
    + left. rewrite transfer_ticket_rejected; [reflexivity|]. by left.
  - destruct (TicketBlockchain.tickets bc !! id) as [tk|] eqn:Htk.
    + destruct (decide (Ticket.status tk = "valid")) as [Hvalid|Hinvalid].
      * do 3 right; left. exists now, id, tk.
        rewrite (redeem_ticket_valid bc id now tk Htk Hvalid). auto.
      * left. rewrite redeem_ticket_rejected; [reflexivity|]. right. eauto.
    + left. rewrite redeem_ticket_rejected; [reflexivity|]. by left.
  - apply mine_returns in Hm as [(_ & -> & _)|(tip & n & Hpend & Htip & _ & Hs & -> & _)];
      [by left|].
    do 4 right. exists now, tip, n. auto.
Qed.

(** The same, with the three records as one case: the index after the step
    is the index before it, updated as the recorded transaction says. *)
Lemma step_records bc bc' :
  step bc bc' ->
  bc' = bc
  \/ (exists tx,
        bc' = TicketBlockchain.Build (TicketBlockchain.chain bc)
                (TicketBlockchain.pending_transactions bc ++ [tx])
                (apply_transaction (TicketBlockchain.tickets bc) tx))
  \/ (exists b,
        TicketBlockchain.pending_transactions bc <> []
        /\ Block.transactions b = TicketBlockchain.pending_transactions bc
        /\ bc' = after_mine bc b).
Proof.
  intros Hstep.
  destruct (step_effect bc bc' Hstep)
    as [->|[(uuid & now & owner & event & _ & ->)
       |[(now & id & new_owner & tk & Htk & _ & ->)
       |[(now & id & tk & Htk & _ & ->)
       |(now & tip & n & Hpend & _ & _ & ->)]]]].
  - by left.
  - right; left.
    by exists (TicketTransaction.Build "issue" uuid owner (Some event) None now).
  - right; left.
    exists (TicketTransaction.Build "transfer" id (Ticket.owner tk) None (Some new_owner) now).
    unfold apply_transaction. cbn. by rewrite Htk.
  - right; left.
    exists (TicketTransaction.Build "redeem" id (Ticket.owner tk) None None now).
    unfold apply_transaction. cbn. by rewrite Htk.
  - right; right. exists (mined now bc tip n). auto.
Qed.

End StepEffects.

Section RunInvariants.

Lemma step_chain_prefix bc bc' :
  step bc bc' -> TicketBlockchain.chain bc `prefix_of` TicketBlockchain.chain bc'.
Proof.
  intros Hstep.
  destruct (step_records bc bc' Hstep) as [->|[(tx & ->)|(b & _ & _ & ->)]];
    [reflexivity | reflexivity | by apply prefix_app_r].
Qed.

Lemma run_chain_prefix bc bc' :
  rtc step bc bc' -> TicketBlockchain.chain bc `prefix_of` TicketBlockchain.chain bc'.
Proof.
  induction 1 as [|bc bc1 bc2 Hstep _ IH]; [reflexivity|].
  etrans; [by apply step_chain_prefix | exact IH].
Qed.

Lemma history_after_mine bc b :
  Block.transactions b = TicketBlockchain.pending_transactions bc ->
  history (after_mine bc b) = history bc.
Proof.
  intros Htx. unfold history, after_mine. cbn.
  rewrite flat_map_app. cbn. by rewrite !app_nil_r, Htx.
Qed.

Lemma step_history bc bc' :
  step bc bc' ->
  history bc' = history bc \/ exists tx, history bc' = history bc ++ [tx].
Proof.
  intros Hstep.
  destruct (step_records bc bc' Hstep) as [->|[(tx & ->)|(b & _ & Htx & ->)]].
  - by left.
  - right. exists tx. unfold history. cbn. by rewrite app_assoc.
  - left. by apply history_after_mine.
Qed.

Lemma run_history_prefix bc bc' : rtc step bc bc' -> history bc `prefix_of` history bc'.
Proof.
  induction 1 as [|bc bc1 bc2 Hstep _ IH]; [reflexivity|].
  etrans; [|exact IH].
  destruct (step_history bc bc1 Hstep) as [->|[tx ->]];
    [reflexivity | by apply prefix_app_r].
Qed.

(** Blocks after the first hold at least one transaction. *)
Lemma step_blocks_nonempty bc bc' :
  step bc bc' ->
  (forall i b, TicketBlockchain.chain bc !! S i = Some b -> Block.transactions b <> []) ->
  forall i b, TicketBlockchain.chain bc' !! S i = Some b -> Block.transactions b <> [].
Proof.
  intros Hstep Hinv.
  destruct (step_records bc bc' Hstep) as [->|[(tx & ->)|(b' & Hpend & Htx & ->)]];
    [exact Hinv | exact Hinv |].
  intros i b Hb. cbn in Hb.
  apply lookup_app_Some in Hb as [Hb|[_ Hb]]; [eauto|].
  apply list_lookup_singleton_Some in Hb as [_ <-]. by rewrite Htx.
Qed.

Lemma run_blocks_nonempty now bc :
  rtc step (TicketBlockchain.init now) bc ->
  forall i b, TicketBlockchain.chain bc !! S i = Some b -> Block.transactions b <> [].
Proof.
  revert bc. apply (rtc_ind_r (fun bc => forall i b,
    TicketBlockchain.chain bc !! S i = Some b -> Block.transactions b <> [])).
  - intros i b Hb. discriminate.
  - intros bc1 bc2 _ Hstep IH. by apply (step_blocks_nonempty bc1 bc2).
Qed.


Lemma replay_snoc txs tx : replay (txs ++ [tx]) = apply_transaction (replay txs) tx.
Proof. unfold replay. by rewrite foldl_snoc. Qed.

Lemma step_replay bc bc' :
  step bc bc' ->
  TicketBlockchain.tickets bc = replay (history bc) ->
  TicketBlockchain.tickets bc' = replay (history bc').
Proof.
  intros Hstep Hinv.
  destruct (step_records bc bc' Hstep) as [->|[(tx & ->)|(b & _ & Htx & ->)]].
  - exact Hinv.
  - replace (history _) with (history bc ++ [tx])
      by (unfold history; cbn; by rewrite app_assoc).
    rewrite replay_snoc, <- Hinv. reflexivity.
  - rewrite history_after_mine by exact Htx. exact Hinv.
Qed.

(** A status is one of the two that the class writes. *)
Lemma step_status bc bc' :
  step bc bc' ->
  (forall id tk, TicketBlockchain.tickets bc !! id = Some tk ->
     Ticket.status tk = "valid" \/ Ticket.status tk = "redeemed") ->
  forall id tk, TicketBlockchain.tickets bc' !! id = Some tk ->
    Ticket.status tk = "valid" \/ Ticket.status tk = "redeemed".
Proof.
  intros Hstep Hinv.
  destruct (step_effect bc bc' Hstep)
    as [->|[(uuid & now & owner & event & _ & ->)
       |[(now & id0 & new_owner & tk0 & Htk0 & Hvalid & ->)
       |[(now & id0 & tk0 & Htk0 & Hvalid & ->)
       |(now & tip & n & _ & _ & _ & ->)]]]];
    [exact Hinv | | | | exact Hinv]; intros id tk; cbn;
    rewrite lookup_insert; case_decide; try apply Hinv; intros [= <-]; auto.
Qed.

(** An entry stays in the index with its event; once redeemed it stays as
    it is. *)
Lemma step_entry bc bc' id tk :
  step bc bc' ->
  TicketBlockchain.tickets bc !! id = Some tk ->
  exists tk', TicketBlockchain.tickets bc' !! id = Some tk'
              /\ Ticket.event tk' = Ticket.event tk
              /\ (Ticket.status tk = "redeemed" -> tk' = tk).
Proof.
  intros Hstep Htk.
  destruct (step_effect bc bc' Hstep)
    as [->|[(uuid & now & owner & event & Hfresh & ->)
       |[(now & id0 & new_owner & tk0 & Htk0 & Hvalid & ->)
       |[(now & id0 & tk0 & Htk0 & Hvalid & ->)
       |(now & tip & n & _ & _ & _ & ->)]]]]; cbn.
  - eauto.
  - rewrite lookup_insert_ne by congruence. eauto.
  - destruct (decide (id0 = id)) as [->|Hne]; [|rewrite lookup_insert_ne by done; eauto].
    rewrite lookup_insert_eq. rewrite Htk in Htk0. injection Htk0 as <-.
    eexists. split; [reflexivity|]. split; [reflexivity|]. rewrite Hvalid. discriminate.
  - destruct (decide (id0 = id)) as [->|Hne]; [|rewrite lookup_insert_ne by done; eauto].
    rewrite lookup_insert_eq. rewrite Htk in Htk0. injection Htk0 as <-.
    eexists. split; [reflexivity|]. split; [reflexivity|]. rewrite Hvalid. discriminate.
  - eauto.
Qed.

End RunInvariants.

Section SessionRuns.

Lemma session_run_0_2 : rtc step Session.ledger0 Session.ledger2.
Proof.
  eapply rtc_l.
  - apply (step_issue Session.id1 Session.t1 "Alice" "Concert A"). reflexivity.
  - apply rtc_once. eapply step_mine. exact session_mine.
Defined.

Lemma session_run_2_5 : rtc step Session.ledger2 Session.ledger5.
Proof.
  eapply rtc_l; [apply (step_transfer Session.t3 Session.id1 "Bob")|].
  eapply rtc_l; [apply (step_redeem Session.t4 Session.id1)|].
  apply rtc_once. apply (step_issue Session.id2 Session.t5 "Dave" "Concert B").
  vm_compute. reflexivity.
Defined.

Lemma session_ledger5_reachable : reachable Session.ledger5.
Proof.
  exists Session.t0. etrans; [exact session_run_0_2 | exact session_run_2_5].
Defined.

End SessionRuns.

(** *** The chain *)

(** X1: no call changes or removes a block of the chain: along any run, the
    chain at the start is a prefix of the chain at the end, so a block found
    at an index is found there, as it was, ever after. *)
Theorem chain_append_only bc bc' i b :
  rtc step bc bc' ->
  TicketBlockchain.chain bc !! i = Some b ->
  TicketBlockchain.chain bc `prefix_of` TicketBlockchain.chain bc'
  /\ TicketBlockchain.chain bc' !! i = Some b.
Proof.
  intros Hrun Hb. pose proof (run_chain_prefix bc bc' Hrun) as Hprefix.
  split; [exact Hprefix|]. by apply (prefix_lookup_Some _ _ _ _ Hb).
Qed.

Lemma chain_append_only_witness :
  rtc step Session.ledger2 Session.ledger5
  /\ TicketBlockchain.chain Session.ledger2 !! 1%nat = Some Session.block1
  /\ TicketBlockchain.chain Session.ledger2 `prefix_of` TicketBlockchain.chain Session.ledger5
  /\ TicketBlockchain.chain Session.ledger5 !! 1%nat = Some Session.block1.
Proof.
  split; [exact session_run_2_5|]. split; [reflexivity|].
  apply (chain_append_only Session.ledger2 Session.ledger5 1 Session.block1);
    [exact session_run_2_5 | reflexivity].
Defined.

(** X2: the first block of the chain of a ledger is, whatever is called on
    it, the block that the constructor made: index 0, no transaction,
    previous hash "0", nonce 0, the time of construction. *)
Theorem genesis_block_fixed now bc :
  rtc step (TicketBlockchain.init now) bc ->
  exists g, TicketBlockchain.chain bc !! 0%nat = Some g
            /\ g = genesis_block now
            /\ Block.index g = 0
            /\ Block.transactions g = []
            /\ Block.previous_hash g = "0"
            /\ Block.nonce g = 0
            /\ Block.timestamp g = now
            /\ Block.hash g = Some (Block.compute_hash g).
Proof.
  intros Hrun. exists (genesis_block now).
  split; [|split; [reflexivity|repeat split]].
  apply (prefix_lookup_Some (TicketBlockchain.chain (TicketBlockchain.init now)));
    [reflexivity | by apply run_chain_prefix].
Qed.

Lemma genesis_block_fixed_witness :
  rtc step (TicketBlockchain.init Session.t0) Session.ledger2
  /\ exists g, TicketBlockchain.chain Session.ledger2 !! 0%nat = Some g
               /\ g = genesis_block Session.t0
               /\ Block.index g = 0
               /\ Block.transactions g = []
               /\ Block.previous_hash g = "0"
               /\ Block.nonce g = 0
               /\ Block.timestamp g = Session.t0
               /\ Block.hash g = Some (Block.compute_hash g).
Proof.
  split; [exact session_run_0_2|].
  apply (genesis_block_fixed Session.t0 Session.ledger2). exact session_run_0_2.
Defined.

(** X3: in a reachable ledger the index stored in a block is its position in
    the chain, and the genesis block is the only block without
    transactions. *)
Theorem block_position_and_content bc i b :
  reachable bc ->
  TicketBlockchain.chain bc !! i = Some b ->
  Block.index b = Z.of_nat i
  /\ (Block.transactions b = [] <-> i = 0%nat).
Proof.
  intros Hreach Hb. split.
  - destruct (reachable_chain_ok bc Hreach) as [_ _ _ _ Hindex]. eauto.
  - destruct Hreach as [now Hrun]. destruct i as [|i].
    + assert (Hg : TicketBlockchain.chain bc !! 0%nat = Some (genesis_block now)).
      { apply (prefix_lookup_Some (TicketBlockchain.chain (TicketBlockchain.init now)));
          [reflexivity | by apply run_chain_prefix]. }
      rewrite Hb in Hg. injection Hg as ->. done.
    + split; [|discriminate]. intros Hempty.
      by destruct (run_blocks_nonempty now bc Hrun i b Hb).
Qed.

Lemma block_position_and_content_witness :
  reachable Session.ledger5
  /\ TicketBlockchain.chain Session.ledger5 !! 1%nat = Some Session.block1
  /\ Block.index Session.block1 = Z.of_nat 1
  /\ (Block.transactions Session.block1 = [] <-> 1%nat = 0%nat).
Proof.
  split; [exact session_ledger5_reachable|]. split; [reflexivity|].
  apply (block_position_and_content Session.ledger5 1 Session.block1);
    [exact session_ledger5_reachable | reflexivity].
Defined.



(** X5: whenever [mine] returns, the pending pool is empty and the ticket
    index is as before; the transactions that the ledger holds, sealed ones
    followed by pending ones, are the same list as before the call, so none
    is lost, duplicated or moved; [None] is returned exactly when the pool
    was empty, and otherwise the chain is one block longer and ends with the
    block returned, which stores a sealed hash of its fields. *)
Theorem mine_result fuel now bc bc' r :
  TicketBlockchain.mine fuel now bc = Returns (bc', r) ->
  TicketBlockchain.pending_transactions bc' = []
  /\ TicketBlockchain.tickets bc' = TicketBlockchain.tickets bc
  /\ history bc' = history bc
  /\ (r = None <-> TicketBlockchain.pending_transactions bc = [])
  /\ match r with
     | None => TicketBlockchain.chain bc' = TicketBlockchain.chain bc
     | Some b => TicketBlockchain.chain bc' = TicketBlockchain.chain bc ++ [b]
                 /\ block_valid b
     end.
Proof.
  intros Hm.
  apply mine_returns in Hm as [(Hpend & -> & ->)|(tip & n & Hpend & _ & _ & Hs & -> & ->)].
  - by repeat split.
  - split; [reflexivity|]. split; [reflexivity|].
    split; [by apply history_after_mine|]. split; [by split|].
    split; [reflexivity|]. unfold block_valid, mined.
    rewrite compute_hash_set_hash. by split.
Qed.

Lemma mine_result_witness :
  TicketBlockchain.mine 2 Session.t2 Session.ledger1
  = Returns (Session.ledger2, Some Session.block1)
  /\ TicketBlockchain.pending_transactions Session.ledger2 = []
  /\ history Session.ledger2 = history Session.ledger1
  /\ TicketBlockchain.chain Session.ledger2
     = TicketBlockchain.chain Session.ledger1 ++ [Session.block1]
  /\ block_valid Session.block1.
Proof.
  assert (Hm : TicketBlockchain.mine 2 Session.t2 Session.ledger1
               = Returns (Session.ledger2, Some Session.block1))
    by (vm_compute; reflexivity).
  destruct (mine_result 2 Session.t2 Session.ledger1 Session.ledger2 (Some Session.block1) Hm)
    as (Hpend & _ & Hhist & _ & Hchain & Hvalid).
  split; [exact Hm|]. split; [exact Hpend|]. split; [exact Hhist|].
  split; [exact Hchain | exact Hvalid].
Defined.

(** X6: the ledger only ever adds to its record: along any run, the list of
    transactions held at the start (sealed, then pending) is a prefix of the
    list held at the end. *)
Theorem history_append_only bc bc' :
  rtc step bc bc' ->
  history bc `prefix_of` history bc'.
Proof. apply run_history_prefix. Qed.

Lemma history_append_only_witness :
  rtc step Session.ledger2 Session.ledger5
  /\ history Session.ledger2 `prefix_of` history Session.ledger5.
Proof.
  split; [exact session_run_2_5|].
  apply (history_append_only Session.ledger2 Session.ledger5). exact session_run_2_5.
Defined.

(** *** The ticket index *)

(** X7: the ticket index of a reachable ledger is the one that its recorded
    transactions give: reading the sealed transactions and then the pending
    ones in order, an issue creating the entry, a transfer setting its owner
    and a redeem its status, rebuilds the index exactly. *)
Theorem index_is_replay bc :
  reachable bc ->
  TicketBlockchain.tickets bc = replay (history bc).
Proof.
  intros [now Hrun]. revert bc Hrun.
  apply (rtc_ind_r (fun bc => TicketBlockchain.tickets bc = replay (history bc))).
  - reflexivity.
  - intros bc1 bc2 _ Hstep IH. by apply (step_replay bc1 bc2).
Qed.

Lemma index_is_replay_witness :
  reachable Session.ledger5
  /\ TicketBlockchain.tickets Session.ledger5 = replay (history Session.ledger5).
Proof.
  split; [exact session_ledger5_reachable|].
  apply (index_is_replay Session.ledger5). exact session_ledger5_reachable.
Defined.

(** X8: every entry of the ticket index of a reachable ledger has the status
    "valid" or the status "redeemed". *)
Theorem status_valid_or_redeemed bc ticket_id tk :
  reachable bc ->
  TicketBlockchain.tickets bc !! ticket_id = Some tk ->
  Ticket.status tk = "valid" \/ Ticket.status tk = "redeemed".
Proof.
  intros [now Hrun]. revert ticket_id tk. revert bc Hrun.
  apply (rtc_ind_r (fun bc => forall ticket_id tk,
    TicketBlockchain.tickets bc !! ticket_id = Some tk ->
    Ticket.status tk = "valid" \/ Ticket.status tk = "redeemed")).
  - intros ticket_id tk Htk. cbn in Htk. by rewrite lookup_empty in Htk.
  - intros bc1 bc2 _ Hstep IH. by apply (step_status bc1 bc2).
Qed.

Lemma status_valid_or_redeemed_witness :
  reachable Session.ledger5
  /\ TicketBlockchain.tickets Session.ledger5 !! Session.id1
     = Some (Ticket.Build "Bob" "redeemed" "Concert A")
  /\ (Ticket.status (Ticket.Build "Bob" "redeemed" "Concert A") = "valid"
      \/ Ticket.status (Ticket.Build "Bob" "redeemed" "Concert A") = "redeemed").
Proof.
  split; [exact session_ledger5_reachable|]. split; [vm_compute; reflexivity|].
  apply (status_valid_or_redeemed Session.ledger5 Session.id1);
    [exact session_ledger5_reachable | vm_compute; reflexivity].
Defined.

(** X9: no call deletes an entry of the ticket index or changes its event,
    and an entry that is redeemed is never changed again: along any run, a
    ticket in the index at the start is in the index at the end with the same
    event, and with the same owner and status too if it was redeemed. *)
Theorem ticket_entry_persists bc bc' ticket_id tk :
  rtc step bc bc' ->
  TicketBlockchain.tickets bc !! ticket_id = Some tk ->
  exists tk', TicketBlockchain.tickets bc' !! ticket_id = Some tk'
              /\ Ticket.event tk' = Ticket.event tk
              /\ (Ticket.status tk = "redeemed" -> tk' = tk).
Proof.
  intros Hrun. revert tk.
  induction Hrun as [bc|bc bc1 bc2 Hstep _ IH]; intros tk Htk.
  - exists tk. auto.
  - destruct (step_entry bc bc1 ticket_id tk Hstep Htk) as (tk1 & Htk1 & Hev1 & Hfrozen1).
    destruct (IH tk1 Htk1) as (tk2 & Htk2 & Hev2 & Hfrozen2).
    exists tk2. split; [exact Htk2|]. split; [congruence|].
    intros Hred. specialize (Hfrozen1 Hred). subst tk1. auto.
Qed.

Lemma ticket_entry_persists_witness :
  rtc step Session.ledger4 Session.ledger5
  /\ TicketBlockchain.tickets Session.ledger4 !! Session.id1
     = Some (Ticket.Build "Bob" "redeemed" "Concert A")
  /\ exists tk', TicketBlockchain.tickets Session.ledger5 !! Session.id1 = Some tk'
                 /\ Ticket.event tk' = Ticket.event (Ticket.Build "Bob" "redeemed" "Concert A")
                 /\ (Ticket.status (Ticket.Build "Bob" "redeemed" "Concert A") = "redeemed" ->
                     tk' = Ticket.Build "Bob" "redeemed" "Concert A").
Proof.
  assert (Hrun : rtc step Session.ledger4 Session.ledger5).
  { apply rtc_once. apply (step_issue Session.id2 Session.t5 "Dave" "Concert B").
    vm_compute. reflexivity. }
  split; [exact Hrun|]. split; [vm_compute; reflexivity|].
  apply (ticket_entry_persists Session.ledger4 Session.ledger5 Session.id1
           (Ticket.Build "Bob" "redeemed" "Concert A"));
    [exact Hrun | vm_compute; reflexivity].
Defined.

(** *** The drop-down lists of the page *)

Section DropDowns.

Variable bc : TicketBlockchain.t.

Lemma elem_of_valid_tickets ticket_id :
  ticket_id ∈ Page.valid_tickets bc
  <-> exists tk, TicketBlockchain.tickets bc !! ticket_id = Some tk
                 /\ Ticket.status tk = "valid".
Proof.
  unfold Page.valid_tickets. rewrite list_elem_of_fmap. split.
  - intros ([id tk] & -> & Hin). apply elem_of_map_to_list in Hin.
    apply map_lookup_filter_Some in Hin as [Htk Hvalid]. by exists tk.
  - intros (tk & Htk & Hvalid). exists (ticket_id, tk). split; [reflexivity|].
    apply elem_of_map_to_list, map_lookup_filter_Some. by split.
Qed.

Lemma elem_of_all_tickets ticket_id :
  ticket_id ∈ Page.all_tickets bc <-> is_Some (TicketBlockchain.tickets bc !! ticket_id).
Proof.
  unfold Page.all_tickets. rewrite list_elem_of_fmap. split.
  - intros ([id tk] & -> & Hin). apply elem_of_map_to_list in Hin. by exists tk.
  - intros [tk Htk]. exists (ticket_id, tk). split; [reflexivity|].
    by apply elem_of_map_to_list.
Qed.

Lemma valid_ticket_rejected_iff ticket_id :
  rejected bc ticket_id <-> ticket_id ∉ Page.valid_tickets bc.
Proof.
  rewrite elem_of_valid_tickets. split.
  - intros [Hnone|(tk & Htk & Hst)] (tk' & Htk' & Hvalid); congruence.
  - intros Hnot. unfold rejected.
    destruct (TicketBlockchain.tickets bc !! ticket_id) as [tk|]; [|by left].
    right. exists tk. split; [reflexivity|]. intros Hvalid. apply Hnot. eauto.
Qed.

End DropDowns.

(** X10: the list [valid_tickets] offers exactly the tickets on which
    [transfer_ticket] and [redeem_ticket] return [True], each of them once:
    the page, which drops the result of both calls and reports success, never
    does so on a call that failed. *)
Theorem valid_tickets_are_usable bc ticket_id now new_owner :
  (ticket_id ∈ Page.valid_tickets bc
   <-> snd (TicketBlockchain.transfer_ticket now ticket_id new_owner bc) = true)
  /\ (ticket_id ∈ Page.valid_tickets bc
      <-> snd (TicketBlockchain.redeem_ticket now ticket_id bc) = true)
  /\ NoDup (Page.valid_tickets bc).
Proof.
  split; [|split].
  - split.
    + intros Hin. apply elem_of_valid_tickets in Hin as (tk & Htk & Hvalid).
      by rewrite (transfer_ticket_valid bc ticket_id now new_owner tk Htk Hvalid).
    + intros Htrue. apply elem_of_valid_tickets.
      destruct (TicketBlockchain.transfer_ticket now ticket_id new_owner bc) as [bc' ok] eqn:Hcall.
      cbn in Htrue. subst ok. by apply transfer_ticket_true in Hcall.
  - split.
    + intros Hin. apply elem_of_valid_tickets in Hin as (tk & Htk & Hvalid).
      by rewrite (redeem_ticket_valid bc ticket_id now tk Htk Hvalid).
    + intros Htrue. apply elem_of_valid_tickets.
      destruct (TicketBlockchain.redeem_ticket now ticket_id bc) as [bc' ok] eqn:Hcall.
      cbn in Htrue. subst ok. by apply redeem_ticket_true in Hcall.
  - apply NoDup_fst_map_to_list.
Qed.

(** X11: the list [all_tickets] holds exactly the identifiers for which
    [verify_ticket] returns an entry, each of them once, and every ticket of
    [valid_tickets] is in it: on a ticket chosen from the list, the branch
    "Ticket not found" of the page is never taken. *)
Theorem all_tickets_are_found bc ticket_id :
  (ticket_id ∈ Page.all_tickets bc
   <-> exists tk, TicketBlockchain.verify_ticket ticket_id bc = Some tk)
  /\ (ticket_id ∈ Page.valid_tickets bc -> ticket_id ∈ Page.all_tickets bc)
  /\ NoDup (Page.all_tickets bc).
Proof.
  split; [apply elem_of_all_tickets|]. split; [|apply NoDup_fst_map_to_list].
  intros Hin. apply elem_of_valid_tickets in Hin as (tk & Htk & _).
  apply elem_of_all_tickets. by exists tk.
Qed.

(** X12: a successful [redeem_ticket] takes the ticket, and no other, off
    the list [valid_tickets], and leaves it in [all_tickets]. *)
Theorem redeem_unlists_ticket bc now ticket_id bc' :
  TicketBlockchain.redeem_ticket now ticket_id bc = (bc', true) ->
  (ticket_id ∉ Page.valid_tickets bc')
  /\ ticket_id ∈ Page.all_tickets bc'
  /\ forall other, other <> ticket_id ->
       (other ∈ Page.valid_tickets bc' <-> other ∈ Page.valid_tickets bc).
Proof.
  intros Hcall.
  destruct (redeem_ticket_true bc ticket_id now bc' Hcall) as (tk & Htk & Hvalid).
  rewrite (redeem_ticket_valid bc ticket_id now tk Htk Hvalid) in Hcall.
  injection Hcall as <-. split; [|split].
  - rewrite elem_of_valid_tickets. cbn. rewrite lookup_insert_eq.
    intros (tk' & [= <-] & Hst). discriminate.
  - apply elem_of_all_tickets. cbn. rewrite lookup_insert_eq. eauto.
  - intros other Hne. rewrite !elem_of_valid_tickets. cbn.
    by rewrite lookup_insert_ne.
Qed.

Lemma redeem_unlists_ticket_witness :
  TicketBlockchain.redeem_ticket Session.t4 Session.id1 Session.ledger3
  = (Session.ledger4, true)
  /\ Session.id1 ∈ Page.valid_tickets Session.ledger3
  /\ (Session.id1 ∉ Page.valid_tickets Session.ledger4)
  /\ Session.id1 ∈ Page.all_tickets Session.ledger4.
Proof.
  assert (Hcall : TicketBlockchain.redeem_ticket Session.t4 Session.id1 Session.ledger3
                  = (Session.ledger4, true)) by (vm_compute; reflexivity).
  destruct (redeem_unlists_ticket Session.ledger3 Session.t4 Session.id1 Session.ledger4 Hcall)
    as (Hout & Hall & _).
  split; [exact Hcall|]. split; [|split; [exact Hout | exact Hall]].
  apply elem_of_valid_tickets. exists (Ticket.Build "Bob" "valid" "Concert A").
  split; [vm_compute; reflexivity | reflexivity].
Defined.

(** X13: a successful [transfer_ticket] changes neither list: the ticket is
    still offered for transfer and for redemption, under its new owner. *)
Theorem transfer_keeps_lists bc now ticket_id new_owner bc' :
  TicketBlockchain.transfer_ticket now ticket_id new_owner bc = (bc', true) ->
  (forall id, id ∈ Page.valid_tickets bc' <-> id ∈ Page.valid_tickets bc)
  /\ (forall id, id ∈ Page.all_tickets bc' <-> id ∈ Page.all_tickets bc)
  /\ exists tk, TicketBlockchain.verify_ticket ticket_id bc' = Some tk
                /\ Ticket.owner tk = new_owner.
Proof.
  intros Hcall.
  destruct (transfer_ticket_true bc ticket_id now new_owner bc' Hcall) as (tk & Htk & Hvalid).
  rewrite (transfer_ticket_valid bc ticket_id now new_owner tk Htk Hvalid) in Hcall.
  injection Hcall as <-. split; [|split].
  - intros id. rewrite !elem_of_valid_tickets. cbn.
    destruct (decide (ticket_id = id)) as [->|Hne].
    + rewrite lookup_insert_eq. split; [eauto|].
      intros _. exists (Ticket.set_owner new_owner tk). by split.
    + by rewrite lookup_insert_ne.
  - intros id. rewrite !elem_of_all_tickets. cbn.
    destruct (decide (ticket_id = id)) as [->|Hne].
    + rewrite lookup_insert_eq. split; eauto.
    + by rewrite lookup_insert_ne.
  - exists (Ticket.set_owner new_owner tk). split; [|reflexivity].
    unfold TicketBlockchain.verify_ticket. cbn. apply lookup_insert_eq.
Qed.

Lemma transfer_keeps_lists_witness :
  TicketBlockchain.transfer_ticket Session.t3 Session.id1 "Bob" Session.ledger2
  = (Session.ledger3, true)
  /\ (Session.id1 ∈ Page.valid_tickets Session.ledger3
      <-> Session.id1 ∈ Page.valid_tickets Session.ledger2)
  /\ exists tk, TicketBlockchain.verify_ticket Session.id1 Session.ledger3 = Some tk
                /\ Ticket.owner tk = "Bob".
Proof.
  assert (Hcall : TicketBlockchain.transfer_ticket Session.t3 Session.id1 "Bob" Session.ledger2
                  = (Session.ledger3, true)) by (vm_compute; reflexivity).
  destruct (transfer_keeps_lists Session.ledger2 Session.t3 Session.id1 "Bob" Session.ledger3 Hcall)
    as (Hvalid & _ & Hverify).
  split; [exact Hcall|]. split; [apply Hvalid | exact Hverify].
Defined.

(** *** The loops and buttons of the page *)

Section IssueLoop.

(** The index after the loop: one insertion per request, in order. *)
Lemma issue_all_eq reqs : forall bc,
  Page.issue_all reqs bc =
  (TicketBlockchain.Build (TicketBlockchain.chain bc)
     (TicketBlockchain.pending_transactions bc ++ map Page.request_tx reqs)
     (foldl (fun m q => <[Page.request_id q := Page.request_ticket q]> m)
        (TicketBlockchain.tickets bc) reqs),
   map Page.request_id reqs).
Proof.
  induction reqs as [|[[[uuid now] owner] event] rest IH]; intros bc.
  - cbn. rewrite app_nil_r. by destruct bc.
  - cbn [Page.issue_all]. unfold TicketBlockchain.issue_ticket.
    cbn [TicketBlockchain.add_transaction TicketBlockchain.set_pending
         TicketBlockchain.set_tickets TicketBlockchain.chain
         TicketBlockchain.pending_transactions TicketBlockchain.tickets TicketTransaction.init].
    rewrite IH. cbn. by rewrite <- app_assoc.
Qed.

Lemma issued_index_other (reqs : list Page.request) id : forall m : gmap string Ticket.t,
  id ∉ map Page.request_id reqs ->
  foldl (fun m q => <[Page.request_id q := Page.request_ticket q]> m) m reqs !! id = m !! id.
Proof.
  induction reqs as [|q rest IH]; intros m Hnot; [reflexivity|].
  cbn in *. apply not_elem_of_cons in Hnot as [Hne Hnot].
  rewrite IH by exact Hnot. by rewrite lookup_insert_ne.
Qed.

Lemma issued_index_lookup (reqs : list Page.request) q : forall m : gmap string Ticket.t,
  NoDup (map Page.request_id reqs) ->
  q ∈ reqs ->
  foldl (fun m q => <[Page.request_id q := Page.request_ticket q]> m) m reqs
    !! Page.request_id q = Some (Page.request_ticket q).
Proof.
  induction reqs as [|q' rest IH]; intros m Hnodup Hin; [by apply elem_of_nil in Hin|].
  cbn in *. apply NoDup_cons in Hnodup as [Hfresh Hnodup].
  apply elem_of_cons in Hin as [->|Hin]; [|by apply IH].
  rewrite issued_index_other by exact Hfresh. apply lookup_insert_eq.
Qed.

End IssueLoop.

(** As C3 has it, for use below: with a tip and a nonce that seals the
    candidate, [mine] returns at the least such nonce. *)
Lemma mine_search now bc tip n :
  TicketBlockchain.pending_transactions bc <> [] ->
  last (TicketBlockchain.chain bc) = Some tip ->
  0 <= n ->
  TicketBlockchain.sealed (hash_at (candidate now bc tip) n) = true ->
  exists m,
    0 <= m <= n
    /\ TicketBlockchain.sealed (hash_at (candidate now bc tip) m) = true
    /\ forall fuel,
         TicketBlockchain.mine fuel now bc =
         if (Z.to_nat m <=? fuel)%nat
         then Returns (after_mine bc (mined now bc tip m), Some (mined now bc tip m))
         else OutOfFuel.
Proof.
  intros Hpend Htip Hn Hs.
  destruct (least_true (fun k => TicketBlockchain.sealed (hash_at (candidate now bc tip) k))
              (Z.to_nat n)) as (m & Hm & Hsm & Hleast).
  { rewrite Z2Nat.id by lia. exact Hs. }
  exists (Z.of_nat m). split; [lia|]. split; [exact Hsm|].
  intros fuel. rewrite (mine_nonempty fuel now bc tip Hpend Htip).
  unfold TicketBlockchain.proof_of_work.
  rewrite (pow_loop_search (candidate now bc tip) m 0 fuel).
  - rewrite Nat2Z.id. destruct (m <=? fuel)%nat; reflexivity.
  - intros k Hk. apply Hleast. lia.
  - exact Hsm.
Qed.

(** X14: the loop that issues a list of tickets leaves the chain alone,
    appends one issue transaction per request to the pending pool, in the
    order of the requests, and returns their identifiers in that order; when
    the identifiers are pairwise distinct, every ticket of the list is then
    found by [verify_ticket] as valid with its owner and its event, and the
    entries under all other identifiers are as before. *)
Theorem issue_all_result reqs bc :
  NoDup (map Page.request_id reqs) ->
  snd (Page.issue_all reqs bc) = map Page.request_id reqs
  /\ TicketBlockchain.chain (fst (Page.issue_all reqs bc)) = TicketBlockchain.chain bc
  /\ TicketBlockchain.pending_transactions (fst (Page.issue_all reqs bc))
     = TicketBlockchain.pending_transactions bc ++ map Page.request_tx reqs
  /\ (forall q, q ∈ reqs ->
        TicketBlockchain.verify_ticket (Page.request_id q) (fst (Page.issue_all reqs bc))
        = Some (Page.request_ticket q))
  /\ (forall id, id ∉ map Page.request_id reqs ->
        TicketBlockchain.verify_ticket id (fst (Page.issue_all reqs bc))
        = TicketBlockchain.verify_ticket id bc).
Proof.
  intros Hnodup. rewrite issue_all_eq. cbn [fst snd].
  split; [reflexivity|]. split; [reflexivity|]. split; [reflexivity|].
  unfold TicketBlockchain.verify_ticket. cbn [TicketBlockchain.tickets]. split.
  - intros q Hq. by apply issued_index_lookup.
  - intros id Hid. by apply issued_index_other.
Qed.

Lemma issue_all_result_witness :
  NoDup (map Page.request_id Demo.demo_tickets)
  /\ snd (Page.issue_all Demo.demo_tickets Session.ledger2)
     = map Page.request_id Demo.demo_tickets
  /\ TicketBlockchain.pending_transactions (fst (Page.issue_all Demo.demo_tickets Session.ledger2))
     = TicketBlockchain.pending_transactions Session.ledger2
         ++ map Page.request_tx Demo.demo_tickets.
Proof.
  assert (Hnodup : NoDup (map Page.request_id Demo.demo_tickets)).
  { refine (bool_decide_unpack _ _). vm_compute. exact I. }
  destruct (issue_all_result Demo.demo_tickets Session.ledger2 Hnodup) as (Hids & _ & Hpend & _).
  split; [exact Hnodup|]. split; [exact Hids | exact Hpend].
Defined.

(** X15: the first run of the page, on a list of demo tickets that is not
    empty and has pairwise distinct identifiers, and when some nonce seals
    the block: the run ends once the search may go as far as the least such
    nonce, with a chain of exactly two blocks, the genesis block and a block
    of index 1 that holds one issue transaction per demo ticket, in the order
    of the list, and is linked to the genesis block; the pool is empty and
    every demo ticket is in the index, valid. *)
Theorem preload_result t_genesis reqs t_block n :
  reqs <> [] ->
  NoDup (map Page.request_id reqs) ->
  0 <= n ->
  TicketBlockchain.sealed
    (hash_at (candidate t_block (fst (Page.issue_all reqs (TicketBlockchain.init t_genesis)))
                (genesis_block t_genesis)) n) = true ->
  exists m b bc',
    0 <= m <= n
    /\ (forall fuel,
          Page.preload fuel t_genesis reqs t_block =
          if (Z.to_nat m <=? fuel)%nat then Returns bc' else OutOfFuel)
    /\ TicketBlockchain.chain bc' = [genesis_block t_genesis; b]
    /\ Block.index b = 1
    /\ Block.transactions b = map Page.request_tx reqs
    /\ Block.previous_hash b = Block.compute_hash (genesis_block t_genesis)
    /\ block_valid b
    /\ TicketBlockchain.pending_transactions bc' = []
    /\ forall q, q ∈ reqs ->
         TicketBlockchain.verify_ticket (Page.request_id q) bc' = Some (Page.request_ticket q).
Proof.
  intros Hne Hnodup Hn Hs. unfold Page.preload.
  rewrite issue_all_eq in *. cbn [fst] in Hs.
  set (bc1 := TicketBlockchain.Build _ _ _) in *.
  assert (Hpend : TicketBlockchain.pending_transactions bc1 <> []).
  { subst bc1. cbn. destruct reqs; [done | discriminate]. }
  destruct (mine_search t_block bc1 (genesis_block t_genesis) n Hpend eq_refl Hn Hs)
    as (m & Hm & Hsm & Hmine).
  exists m, (mined t_block bc1 (genesis_block t_genesis) m),
    (after_mine bc1 (mined t_block bc1 (genesis_block t_genesis) m)).
  split; [exact Hm|]. split.
  { intros fuel. unfold Page.mine_stmt. rewrite Hmine.
    by destruct (Z.to_nat m <=? fuel)%nat. }
  split; [reflexivity|]. split; [reflexivity|]. split; [reflexivity|].
  split; [reflexivity|]. split.
  { unfold block_valid, mined. rewrite compute_hash_set_hash. by split. }
  split; [reflexivity|].
  intros q Hq. unfold TicketBlockchain.verify_ticket. cbn [after_mine TicketBlockchain.tickets].
  subst bc1. cbn [TicketBlockchain.tickets]. by apply issued_index_lookup.
Qed.

Lemma preload_result_witness :
  Demo.demo_tickets <> []
  /\ NoDup (map Page.request_id Demo.demo_tickets)
  /\ 0 <= 1
  /\ TicketBlockchain.sealed
       (hash_at (candidate Demo.t_block
                   (fst (Page.issue_all Demo.demo_tickets (TicketBlockchain.init Demo.t_genesis)))
                   (genesis_block Demo.t_genesis)) 1) = true
  /\ exists m b bc',
       0 <= m <= 1
       /\ (forall fuel,
             Page.preload fuel Demo.t_genesis Demo.demo_tickets Demo.t_block =
             if (Z.to_nat m <=? fuel)%nat then Returns bc' else OutOfFuel)
       /\ TicketBlockchain.chain bc' = [genesis_block Demo.t_genesis; b]
       /\ Block.index b = 1
       /\ Block.transactions b = map Page.request_tx Demo.demo_tickets
       /\ Block.previous_hash b = Block.compute_hash (genesis_block Demo.t_genesis)
       /\ block_valid b
       /\ TicketBlockchain.pending_transactions bc' = []
       /\ forall q, q ∈ Demo.demo_tickets ->
            TicketBlockchain.verify_ticket (Page.request_id q) bc'
            = Some (Page.request_ticket q).
Proof.
  assert (Hnodup : NoDup (map Page.request_id Demo.demo_tickets)).
  { refine (bool_decide_unpack _ _). vm_compute. exact I. }
  assert (Hs : TicketBlockchain.sealed
                 (hash_at (candidate Demo.t_block
                             (fst (Page.issue_all Demo.demo_tickets
                                     (TicketBlockchain.init Demo.t_genesis)))
                             (genesis_block Demo.t_genesis)) 1) = true)
    by (vm_compute; reflexivity).
  split; [discriminate|]. split; [exact Hnodup|]. split; [lia|]. split; [exact Hs|].
  apply (preload_result Demo.t_genesis Demo.demo_tickets Demo.t_block 1);
    [discriminate | exact Hnodup | lia | exact Hs].
Defined.

(** X16: the "Redeem Ticket" button, on a ticket of the list
    [valid_tickets] and a ledger with an empty pool, as every button leaves
    it, and when some nonce seals the block: the call ends once the search
    may go as far as the least such nonce; the chain is then one block
    longer, that block holds the redeem transaction of the ticket, under its
    owner, and nothing else; the pool is empty again and the ticket is off
    the list, redeemed. *)
Theorem redeem_button_result bc tip ticket_id t_tx t_block n :
  ticket_id ∈ Page.valid_tickets bc ->
  TicketBlockchain.pending_transactions bc = [] ->
  last (TicketBlockchain.chain bc) = Some tip ->
  0 <= n ->
  TicketBlockchain.sealed
    (hash_at (candidate t_block (fst (TicketBlockchain.redeem_ticket t_tx ticket_id bc)) tip) n)
  = true ->
  exists m b bc' tk,
    0 <= m <= n
    /\ (forall fuel,
          Page.redeem_button fuel t_tx t_block ticket_id bc =
          if (Z.to_nat m <=? fuel)%nat then Returns bc' else OutOfFuel)
    /\ TicketBlockchain.verify_ticket ticket_id bc = Some tk
    /\ TicketBlockchain.chain bc' = TicketBlockchain.chain bc ++ [b]
    /\ Block.transactions b
       = [TicketTransaction.Build "redeem" ticket_id (Ticket.owner tk) None None t_tx]
    /\ block_valid b
    /\ TicketBlockchain.pending_transactions bc' = []
    /\ TicketBlockchain.verify_ticket ticket_id bc' = Some (Ticket.set_status "redeemed" tk)
    /\ (ticket_id ∉ Page.valid_tickets bc').
Proof.
  intros Hin Hpool Htip Hn Hs. unfold Page.redeem_button.
  apply elem_of_valid_tickets in Hin as (tk & Htk & Hvalid).
  rewrite (redeem_ticket_valid bc ticket_id t_tx tk Htk Hvalid) in *. cbn [fst] in Hs.
  rewrite Hpool in *. cbn [app] in *.
  set (bc1 := TicketBlockchain.Build _ _ _) in *.
  destruct (mine_search t_block bc1 tip n) as (m & Hm & Hsm & Hmine);
    [discriminate | exact Htip | exact Hn | exact Hs |].
  exists m, (mined t_block bc1 tip m), (after_mine bc1 (mined t_block bc1 tip m)), tk.
  split; [exact Hm|]. split.
  { intros fuel. unfold Page.mine_stmt. rewrite Hmine.
    by destruct (Z.to_nat m <=? fuel)%nat. }
  split; [exact Htk|]. split; [reflexivity|]. split; [reflexivity|]. split.
  { unfold block_valid, mined. rewrite compute_hash_set_hash. by split. }
  split; [reflexivity|].
  assert (Hafter : TicketBlockchain.tickets (after_mine bc1 (mined t_block bc1 tip m))
                   !! ticket_id = Some (Ticket.set_status "redeemed" tk))
    by apply lookup_insert_eq.
  split; [exact Hafter|].
  rewrite elem_of_valid_tickets. intros (tk' & Htk' & Hst).
  rewrite Hafter in Htk'. injection Htk' as <-. discriminate.
Qed.

Lemma redeem_button_result_witness :
  Session.id1 ∈ Page.valid_tickets Session.ledger2
  /\ TicketBlockchain.pending_transactions Session.ledger2 = []
  /\ last (TicketBlockchain.chain Session.ledger2) = Some Session.block1
  /\ 0 <= 1
  /\ TicketBlockchain.sealed
       (hash_at (candidate Demo.t_redeem_block
                   (fst (TicketBlockchain.redeem_ticket Session.t3 Session.id1 Session.ledger2))
                   Session.block1) 1) = true
  /\ exists m b bc' tk,
       0 <= m <= 1
       /\ (forall fuel,
             Page.redeem_button fuel Session.t3 Demo.t_redeem_block Session.id1 Session.ledger2 =
             if (Z.to_nat m <=? fuel)%nat then Returns bc' else OutOfFuel)
       /\ TicketBlockchain.verify_ticket Session.id1 Session.ledger2 = Some tk
       /\ TicketBlockchain.chain bc' = TicketBlockchain.chain Session.ledger2 ++ [b]
       /\ Block.transactions b
          = [TicketTransaction.Build "redeem" Session.id1 (Ticket.owner tk) None None Session.t3]
       /\ block_valid b
       /\ TicketBlockchain.pending_transactions bc' = []
       /\ TicketBlockchain.verify_ticket Session.id1 bc'
          = Some (Ticket.set_status "redeemed" tk)
       /\ (Session.id1 ∉ Page.valid_tickets bc').
Proof.
  assert (Hin : Session.id1 ∈ Page.valid_tickets Session.ledger2).
  { apply elem_of_valid_tickets. exists (Ticket.Build "Alice" "valid" "Concert A").
    split; [vm_compute; reflexivity | reflexivity]. }
  assert (Hs : TicketBlockchain.sealed
                 (hash_at (candidate Demo.t_redeem_block
                             (fst (TicketBlockchain.redeem_ticket Session.t3 Session.id1
                                     Session.ledger2))
                             Session.block1) 1) = true)
    by (vm_compute; reflexivity).
  split; [exact Hin|]. split; [reflexivity|]. split; [reflexivity|]. split; [lia|].
  split; [exact Hs|].
  apply (redeem_button_result Session.ledger2 Session.block1 Session.id1 Session.t3
           Demo.t_redeem_block 1); [exact Hin | reflexivity | reflexivity | lia | exact Hs].
Defined.

(** X17: on a ledger with an empty pool, the buttons "Redeem Ticket" and
    "Transfer Ticket" pressed for a ticket that is not on the list
    [valid_tickets] (unknown, or redeemed) leave the ledger as it is: no
    transaction, no block, no search; and so does "Transfer Ticket" with an
    empty new owner, for any ticket. *)
Theorem buttons_without_effect bc ticket_id fuel t_tx t_block new_owner :
  TicketBlockchain.pending_transactions bc = [] ->
  ticket_id ∉ Page.valid_tickets bc ->
  Page.redeem_button fuel t_tx t_block ticket_id bc = Returns bc
  /\ Page.transfer_button fuel t_tx t_block ticket_id new_owner bc = Returns bc
  /\ forall other, Page.transfer_button fuel t_tx t_block other EmptyString bc = Returns bc.
Proof.
  intros Hpool Hnot. apply valid_ticket_rejected_iff in Hnot.
  assert (Hmine : Page.mine_stmt fuel t_block bc = Returns bc)
    by (unfold Page.mine_stmt; by rewrite mine_empty).
  split; [|split].
  - unfold Page.redeem_button. by rewrite redeem_ticket_rejected.
  - unfold Page.transfer_button. destruct (String.eqb new_owner EmptyString); [reflexivity|].
    by rewrite transfer_ticket_rejected.
  - reflexivity.
Qed.

Lemma buttons_without_effect_witness :
  TicketBlockchain.pending_transactions Session.ledger2 = []
  /\ (Session.id2 ∉ Page.valid_tickets Session.ledger2)
  /\ Page.redeem_button 0 Session.t3 Session.t4 Session.id2 Session.ledger2
     = Returns Session.ledger2
  /\ Page.transfer_button 0 Session.t3 Session.t4 Session.id2 "Bob" Session.ledger2
     = Returns Session.ledger2.
Proof.
  assert (Hnot : Session.id2 ∉ Page.valid_tickets Session.ledger2).
  { apply valid_ticket_rejected_iff. left. vm_compute. reflexivity. }
  destruct (buttons_without_effect Session.ledger2 Session.id2 0 Session.t3 Session.t4 "Bob"
              eq_refl Hnot) as (Hredeem & Htransfer & _).
  split; [reflexivity|]. split; [exact Hnot|]. split; [exact Hredeem | exact Htransfer].
Defined.

(** X18: [transfer_ticket] does not compare the new owner with the current
    one: a transfer of a valid ticket to the owner it already has returns
    [True], leaves the ticket index and the chain as they are, and still
    records a transfer transaction whose owner and new owner are the same. *)
Theorem transfer_to_current_owner bc now ticket_id tk :
  TicketBlockchain.tickets bc !! ticket_id = Some tk ->
  Ticket.status tk = "valid" ->
  TicketBlockchain.transfer_ticket now ticket_id (Ticket.owner tk) bc =
  (TicketBlockchain.Build
     (TicketBlockchain.chain bc)
     (TicketBlockchain.pending_transactions bc
        ++ [TicketTransaction.Build "transfer" ticket_id (Ticket.owner tk) None
              (Some (Ticket.owner tk)) now])
     (TicketBlockchain.tickets bc),
   true).
Proof.
  intros Htk Hvalid.
  rewrite (transfer_ticket_valid bc ticket_id now (Ticket.owner tk) tk Htk Hvalid).
  do 2 f_equal. apply insert_id. rewrite Htk. by destruct tk.
Qed.

Lemma transfer_to_current_owner_witness :
  TicketBlockchain.tickets Session.ledger2 !! Session.id1
  = Some (Ticket.Build "Alice" "valid" "Concert A")
  /\ Ticket.status (Ticket.Build "Alice" "valid" "Concert A") = "valid"
  /\ snd (TicketBlockchain.transfer_ticket Session.t3 Session.id1 "Alice" Session.ledger2) = true
  /\ TicketBlockchain.tickets
       (fst (TicketBlockchain.transfer_ticket Session.t3 Session.id1 "Alice" Session.ledger2))
     = TicketBlockchain.tickets Session.ledger2.
Proof.
  assert (Htk : TicketBlockchain.tickets Session.ledger2 !! Session.id1
                = Some (Ticket.Build "Alice" "valid" "Concert A"))
    by (vm_compute; reflexivity).
  pose proof (transfer_to_current_owner Session.ledger2 Session.t3 Session.id1 _ Htk eq_refl)
    as Hcall.
  cbn [Ticket.owner] in Hcall.
  split; [exact Htk|]. split; [reflexivity|]. rewrite Hcall. split; reflexivity.
Defined.

(** *** The text of a hash *)

Section HashText.

Lemma length_compress h chunk :
  length h = 8%nat -> length (Sha256.compress h chunk) = 8%nat.
Proof. intros Hh. unfold Sha256.compress. rewrite length_zip_with, Hh. reflexivity. Qed.

Lemma length_digest_words msg : length (Sha256.digest_words msg) = 8%nat.
Proof.
  unfold Sha256.digest_words.
  assert (Hfold : forall cs h, length h = 8%nat ->
                    length (fold_left Sha256.compress cs h) = 8%nat).
  { induction cs as [|c cs IH]; intros h Hh; [exact Hh|].
    cbn. apply IH. by apply length_compress. }
  by apply Hfold.
Qed.

Lemma is_hex_nibble w k :
  is_hex (Sha256.hex_digit (Z.land (Z.shiftr w k) 0xf)) = true.
Proof.
  assert (Hrange : 0 <= Z.land (Z.shiftr w k) 0xf < 16).
  { change 0xf with (Z.ones 4). rewrite Z.land_ones by lia. apply Z.mod_pos_bound. lia. }
  destruct (Z.land (Z.shiftr w k) 0xf) as [|p|p]; [reflexivity| |lia].
  do 4 (destruct p as [p|p|]; try reflexivity; try lia).
Qed.

End HashText.

(** X19: the hash of a block is always a text of 64 characters, each a
    digit or a letter from a to f: the test for leading zeros reads
    hexadecimal digits, and no hash is the text "0" that marks the genesis
    block's missing predecessor. *)
Theorem compute_hash_format b :
  String.length (Block.compute_hash b) = 64%nat
  /\ Forall (fun c => is_hex c = true) (list_ascii_of_string (Block.compute_hash b))
  /\ Block.compute_hash b <> "0".
Proof.
  unfold Block.compute_hash, sha256_hexdigest.
  pose proof (length_digest_words (Sha256.bytes_of_string (Block.block_string b))) as Hlen.
  destruct (Sha256.digest_words _) as [|w0 [|w1 [|w2 [|w3 [|w4 [|w5 [|w6 [|w7 [|w8 ws]]]]]]]]];
    try discriminate Hlen.
  cbv [String.concat map Sha256.hex_word string_of_list_ascii String.append].
  split; [reflexivity|]. split; [|discriminate].
  cbv [list_ascii_of_string].
  repeat (apply Forall_cons; split; [apply is_hex_nibble|]). apply Forall_nil_2.
Qed.

(** *** How often a ticket is recorded *)

Section Records.

#[local] Ltac count_case :=
  repeat case_decide;
  try match goal with |- context [TicketBlockchain.tickets ?bc !! ?id] =>
        destruct (TicketBlockchain.tickets bc !! id) end;
  repeat case_decide; cbn;
  solve [reflexivity | lia | exfalso; intuition congruence].

Lemma records_snoc kind ticket_id bc bc' tx :
  history bc' = history bc ++ [tx] ->
  length (records kind ticket_id bc') =
  (length (records kind ticket_id bc)
   + if decide (TicketTransaction.tx_type tx = kind
                /\ TicketTransaction.ticket_id tx = ticket_id) then 1 else 0)%nat.
Proof.
  intros Hhist. unfold records. rewrite Hhist, filter_app, length_app. f_equal.
  case_decide.
  - by rewrite filter_cons_True.
  - by rewrite filter_cons_False.
Qed.

(** The number of issue and of redeem transactions of a ticket, as the
    index tells it. *)
Lemma step_records_count bc bc' :
  step bc bc' ->
  (forall id,
     length (records "issue" id bc)
     = match TicketBlockchain.tickets bc !! id with Some _ => 1 | None => 0 end%nat
     /\ length (records "redeem" id bc)
        = match TicketBlockchain.tickets bc !! id with
          | Some tk => if decide (Ticket.status tk = "redeemed") then 1 else 0
          | None => 0
          end%nat) ->
  forall id,
    length (records "issue" id bc')
    = match TicketBlockchain.tickets bc' !! id with Some _ => 1 | None => 0 end%nat
    /\ length (records "redeem" id bc')
       = match TicketBlockchain.tickets bc' !! id with
         | Some tk => if decide (Ticket.status tk = "redeemed") then 1 else 0
         | None => 0
         end%nat.
Proof.
  intros Hstep Hinv id. destruct (Hinv id) as [Hissue Hredeem].
  destruct (step_effect bc bc' Hstep)
    as [->|[(uuid & now & owner & event & Hfresh & ->)
       |[(now & id0 & new_owner & tk0 & Htk0 & Hvalid & ->)
       |[(now & id0 & tk0 & Htk0 & Hvalid & ->)
       |(now & tip & n & _ & _ & _ & ->)]]]].
  - by split.
  - rewrite (records_snoc "issue" id bc _
                (TicketTransaction.Build "issue" uuid owner (Some event) None now))
      by (unfold history; cbn; by rewrite app_assoc).
    rewrite (records_snoc "redeem" id bc _
                (TicketTransaction.Build "issue" uuid owner (Some event) None now))
      by (unfold history; cbn; by rewrite app_assoc).
    rewrite Hissue, Hredeem. cbn.
    destruct (decide (uuid = id)) as [->|Hne].
    + rewrite lookup_insert_eq, Hfresh. cbn. split; count_case.
    + rewrite lookup_insert_ne by done. split; count_case.
  - rewrite (records_snoc "issue" id bc _
                (TicketTransaction.Build "transfer" id0 (Ticket.owner tk0) None
                   (Some new_owner) now))
      by (unfold history; cbn; by rewrite app_assoc).
    rewrite (records_snoc "redeem" id bc _
                (TicketTransaction.Build "transfer" id0 (Ticket.owner tk0) None
                   (Some new_owner) now))
      by (unfold history; cbn; by rewrite app_assoc).
    rewrite Hissue, Hredeem. cbn.
    destruct (decide (id0 = id)) as [->|Hne].
    + rewrite lookup_insert_eq, Htk0. cbn. rewrite Hvalid.
      split; count_case.
    + rewrite lookup_insert_ne by done. split; count_case.
  - rewrite (records_snoc "issue" id bc _
                (TicketTransaction.Build "redeem" id0 (Ticket.owner tk0) None None now))
      by (unfold history; cbn; by rewrite app_assoc).
    rewrite (records_snoc "redeem" id bc _
                (TicketTransaction.Build "redeem" id0 (Ticket.owner tk0) None None now))
      by (unfold history; cbn; by rewrite app_assoc).
    rewrite Hissue, Hredeem. cbn.
    destruct (decide (id0 = id)) as [->|Hne].
    + rewrite lookup_insert_eq, Htk0. cbn. rewrite Hvalid.
      split; count_case.
    + rewrite lookup_insert_ne by done. split; count_case.
  - unfold records. rewrite history_after_mine by reflexivity. by split.
Qed.

End Records.

(** X20: in a reachable ledger, whose identifiers are drawn fresh, the
    transactions held (sealed or pending) contain exactly one issue
    transaction for every ticket of the index and none for any other
    identifier, and exactly one redeem transaction for every redeemed ticket
    and none for any other: no ticket is issued or redeemed twice. *)
Theorem ticket_recorded_once bc ticket_id :
  reachable bc ->
  length (records "issue" ticket_id bc)
  = match TicketBlockchain.tickets bc !! ticket_id with Some _ => 1 | None => 0 end%nat
  /\ length (records "redeem" ticket_id bc)
     = match TicketBlockchain.tickets bc !! ticket_id with
       | Some tk => if decide (Ticket.status tk = "redeemed") then 1 else 0
       | None => 0
       end%nat.
Proof.
  intros [now Hrun]. revert ticket_id. revert bc Hrun.
  apply (rtc_ind_r (fun bc => forall id,
    length (records "issue" id bc)
    = match TicketBlockchain.tickets bc !! id with Some _ => 1 | None => 0 end%nat
    /\ length (records "redeem" id bc)
       = match TicketBlockchain.tickets bc !! id with
         | Some tk => if decide (Ticket.status tk = "redeemed") then 1 else 0
         | None => 0
         end%nat)).
  - intros id. cbn. rewrite lookup_empty. by split.
  - intros bc1 bc2 _ Hstep IH. by apply (step_records_count bc1 bc2).
Qed.

Lemma ticket_recorded_once_witness :
  reachable Session.ledger5
  /\ length (records "issue" Session.id1 Session.ledger5) = 1%nat
  /\ length (records "redeem" Session.id1 Session.ledger5) = 1%nat.
Proof.
  split; [exact session_ledger5_reachable|].
  pose proof (ticket_recorded_once Session.ledger5 Session.id1 session_ledger5_reachable)
    as [Hissue Hredeem].
  assert (Htk : TicketBlockchain.tickets Session.ledger5 !! Session.id1
                = Some (Ticket.Build "Bob" "redeemed" "Concert A"))
    by (vm_compute; reflexivity).
  rewrite Htk in Hissue, Hredeem. split; [exact Hissue | exact Hredeem].
Defined.
